(** * FlowMind AI: the text-to-diagram conversion pipeline

    A shallow embedding of the diagram helpers of [src/pages/Diagram.jsx]
    ([validateMermaidSyntax], [cleanMermaidCode], [analyzeInput],
    [handleSubmit]), of the fallback parser [src/utils/flowchartParser.js]
    ([parseFlowchartInput], [generateFlowchartFromAPI],
    [generateFallbackFlowchart], [sanitizeForMermaid]) and of the chart
    normalisation of [src/components/MermaidRenderer.jsx].

    JavaScript strings are sequences of UTF-16 code units; they are modelled
    as [list N].  The regular expressions of the source have no [u] flag, so
    they too work on code units. *)

From Stdlib Require Import List NArith ZArith Bool Lia Ascii String PeanoNat.
From Stdlib Require Import DecimalString.
Import ListNotations.

Set Implicit Arguments.
Local Open Scope N_scope.
Local Open Scope list_scope.

(* ================================================================= *)
(** ** JavaScript strings *)

Definition jsstring := list N.

(** An ASCII literal of the source as a sequence of code units. *)
Definition js (s : string) : jsstring :=
  List.map N_of_ascii (list_ascii_of_string s).

Definition LF : N := 10.
Definition CR : N := 13.
Definition DQUOTE : N := 34.
Definition APOSTROPHE : N := 39.
Definition BACKSLASH : N := 92.

(** A double-quoted fragment inside a template literal. *)
Definition quoted (s : jsstring) : jsstring := [DQUOTE] ++ s ++ [DQUOTE].

(** [String.fromCharCode(n)]: one code unit, taken modulo 2^16. *)
Definition fromCharCode (n : N) : jsstring := [n mod 65536].

(** The decimal rendering of a non-negative integer inside a template
    literal. *)
Definition decimal (n : N) : jsstring :=
  js (NilEmpty.string_of_uint (N.to_uint n)).

Definition jsLength (s : jsstring) : N := N.of_nat (List.length s).

(** WhiteSpace and LineTerminator code points of ECMAScript: what
    [String.prototype.trim] removes and what [\s] matches. *)
Definition isWhiteSpace (c : N) : bool :=
  (c =? 9) || (c =? 10) || (c =? 11) || (c =? 12) || (c =? 13) || (c =? 32)
  || (c =? 160) || (c =? 5760) || ((8192 <=? c) && (c <=? 8202))
  || (c =? 8232) || (c =? 8233) || (c =? 8239) || (c =? 8287)
  || (c =? 12288) || (c =? 65279).

(** [\w] without the [u] or [i] flags. *)
Definition isWordChar (c : N) : bool :=
  ((65 <=? c) && (c <=? 90)) || ((97 <=? c) && (c <=? 122))
  || ((48 <=? c) && (c <=? 57)) || (c =? 95).

Fixpoint trimStart (s : jsstring) : jsstring :=
  match s with
  | [] => []
  | c :: s' => if isWhiteSpace c then trimStart s' else s
  end.

Fixpoint trimEnd (s : jsstring) : jsstring :=
  match s with
  | [] => []
  | c :: s' =>
      match trimEnd s' with
      | [] => if isWhiteSpace c then [] else [c]
      | t => c :: t
      end
  end.

(** [s.trim()] *)
Definition trim (s : jsstring) : jsstring := trimEnd (trimStart s).

(** [s.startsWith(p)] *)
Fixpoint startsWith (p s : jsstring) : bool :=
  match p, s with
  | [], _ => true
  | _ :: _, [] => false
  | a :: p', b :: s' => (a =? b) && startsWith p' s'
  end.

(** [s.includes(t)] *)
Fixpoint includes (t s : jsstring) : bool :=
  startsWith t s ||
  match s with
  | [] => false
  | _ :: s' => includes t s'
  end.

(** [t] occurs in [s] as a contiguous run of code units: what
    [includes] decides. *)
Definition Contains (t s : jsstring) : Prop :=
  exists before after, s = before ++ t ++ after.

(** [s.split(sep)] for a separator that is one code unit out of a set:
    [split('\n')] and [split(/[,.;:]/)].  The result is never empty. *)
Fixpoint splitOn (sep : N -> bool) (s : jsstring) : list jsstring :=
  match s with
  | [] => [[]]
  | c :: s' =>
      if sep c then [] :: splitOn sep s'
      else match splitOn sep s' with
           | [] => [[c]]
           | l :: ls => (c :: l) :: ls
           end
  end.

(** No code unit of [l] is a separator. *)
Definition sepFree (sep : N -> bool) (l : jsstring) : Prop :=
  forall c, In c l -> sep c = false.

(** [lines.join(sep)] *)
Fixpoint join (sep : jsstring) (parts : list jsstring) : jsstring :=
  match parts with
  | [] => []
  | [p] => p
  | p :: rest => p ++ sep ++ join sep rest
  end.

(** [s.replace(/c/g, d)] for a one-unit pattern and a one-unit
    replacement. *)
Definition replaceUnit (c d : N) (s : jsstring) : jsstring :=
  List.map (fun x => if x =? c then d else x) s.

(** [s.substring(0, n)] *)
Definition substring0 (n : nat) (s : jsstring) : jsstring := firstn n s.

Definition isNewline (c : N) : bool := c =? LF.

(* ================================================================= *)
(** ** JavaScript values, truthiness and exceptions *)

#[warnings="-register-all"]
Inductive jsval : Type :=
| JUndefined
| JNull
| JBool (b : bool)
| JNum (z : Z)
| JStr (s : jsstring)
| JObj (fields : list (jsstring * jsval)).

(** ToBoolean *)
Definition truthy (v : jsval) : bool :=
  match v with
  | JUndefined | JNull => false
  | JBool b => b
  | JNum z => negb (z =? 0)%Z
  | JStr s => match s with [] => false | _ :: _ => true end
  | JObj _ => true
  end.

(** [typeof v === 'string'] *)
Definition isString (v : jsval) : bool :=
  match v with JStr _ => true | _ => false end.

Definition truthyStr (s : jsstring) : bool := truthy (JStr s).

(** The outcome of a block that may throw; the payload of [Throw] is the
    message of the error. *)
Inductive result (A : Type) : Type :=
| Ok (a : A)
| Throw (message : jsstring).

Arguments Ok {A} a.
Arguments Throw {A} message.

Fixpoint lookupField (name : jsstring) (fields : list (jsstring * jsval))
  : jsval :=
  match fields with
  | [] => JUndefined
  | (k, v) :: rest =>
      if list_eq_dec N.eq_dec k name then v else lookupField name rest
  end.

(** Property access [v.name] for the data fields the source reads: a
    TypeError on [undefined] and [null], [undefined] on a primitive. *)
Definition getProp (v : jsval) (name : jsstring) : result jsval :=
  match v with
  | JUndefined | JNull =>
      Throw (js "Cannot read properties of undefined or null")
  | JObj fields => Ok (lookupField name fields)
  | _ => Ok JUndefined
  end.

(* ================================================================= *)
(** ** Diagram.jsx: validateMermaidSyntax *)

Definition GRAPH : jsstring := js "graph".
Definition CLASSDEF : jsstring := js "classDef".
Definition GRAPH_TD : jsstring := js "graph TD".
Definition GRAPH_LR : jsstring := js "graph LR".
Definition ARROW : jsstring := js "-->".

(** The test of the inner [if]: the trimmed line has node or edge
    syntax. *)
Definition hasNodeOrEdgeSyntax (trimmed : jsstring) : bool :=
  includes (js "[") trimmed || includes (js "(") trimmed
  || includes (js "{") trimmed || includes ARROW trimmed.

(** One iteration of [for (const line of lines)]: the new value of
    [hasNodes]. *)
Definition validateLine (hasNodes : bool) (line : jsstring) : bool :=
  let trimmed := trim line in
  if truthyStr trimmed && negb (startsWith GRAPH trimmed)
     && negb (startsWith CLASSDEF trimmed)
  then if hasNodeOrEdgeSyntax trimmed then true else hasNodes
  else hasNodes.

Definition hasNodesIn (mermaidCode : jsstring) : bool :=
  fold_left validateLine (splitOn isNewline mermaidCode) false.

(** The body of the [try] block. *)
Definition validateBody (mermaidCode : jsval) : result bool :=
  if negb (truthy mermaidCode) || negb (isString mermaidCode)
  then Throw (js "Invalid mermaid code type")
  else
    match mermaidCode with
    | JStr code =>
        if negb (includes GRAPH_TD code) && negb (includes GRAPH_LR code)
        then Throw (js "Missing graph declaration")
        else if negb (hasNodesIn code)
             then Throw (js "No valid nodes or edges found")
             else Ok true
    | _ => Throw (js "Invalid mermaid code type")
    end.

Definition validateMermaidSyntax (mermaidCode : jsval) : bool :=
  match validateBody mermaidCode with
  | Ok b => b
  | Throw _ => false
  end.

(** The lines the loop passes over: those whose trimmed text starts with
    [graph] or [classDef]. *)
Definition isHeaderOrStyleLine (line : jsstring) : bool :=
  startsWith GRAPH (trim line) || startsWith CLASSDEF (trim line).

(** The line contains a bracket, a parenthesis, a brace or an arrow. *)
Definition HasToken (line : jsstring) : Prop :=
  Contains (js "[") line \/ Contains (js "(") line
  \/ Contains (js "{") line \/ Contains ARROW line.

(** The lines that make [hasNodes] true. *)
Definition lineCounts (line : jsstring) : bool :=
  truthyStr (trim line) && negb (startsWith GRAPH (trim line))
  && negb (startsWith CLASSDEF (trim line))
  && hasNodeOrEdgeSyntax (trim line).

(* ================================================================= *)
(** ** Diagram.jsx: cleanMermaidCode *)

(** The code units of the character class
    [[🚀📝⚙️❓✅❌🏁🎉⏳💳📦🏷️📧🏭🔄⏸️👥]]: without the [u] flag every
    surrogate half and every variation selector is a member of its own. *)
Definition glyphUnits : list N :=
  [ 55357; 56960; 55357; 56541; 9881; 65039; 10067; 9989; 10060;
    55356; 57281; 55356; 57225; 9203; 55357; 56499; 55357; 56550;
    55356; 57335; 65039; 55357; 56551; 55356; 57325; 55357; 56580;
    9208; 65039; 55357; 56421 ].

Definition isGlyph (c : N) : bool := existsb (N.eqb c) glyphUnits.

Definition stripGlyphs (line : jsstring) : jsstring :=
  filter (fun c => negb (isGlyph c)) line.

(** One iteration of [for (let line of lines)]: the array [cleanedLines]
    after it. *)
Definition cleanStep (cleanedLines : list jsstring) (line : jsstring)
  : list jsstring :=
  let cleaned := trim (stripGlyphs line) in
  if truthyStr cleaned
     || ((List.length cleanedLines =? 1)%nat
         && startsWith GRAPH (nth 0 cleanedLines []))
  then cleanedLines ++ [cleaned]
  else cleanedLines.

Definition cleanedLinesOf (mermaidCode : jsstring) : list jsstring :=
  fold_left cleanStep (splitOn isNewline mermaidCode) [].

(** The template literal returned when the structure is not proper. *)
Definition minimalDiagram : jsstring :=
  js "graph TD" ++ [LF]
  ++ js "    A[" ++ quoted (js "Start") ++ js "] --> B["
  ++ quoted (js "Process") ++ js "]" ++ [LF]
  ++ js "    B --> C[" ++ quoted (js "End") ++ js "]" ++ [LF]
  ++ js "    classDef default fill:#f9f9f9,stroke:#333,stroke-width:2px".

Definition cleanMermaidCode (mermaidCode : jsval) : jsval :=
  if negb (truthy mermaidCode) || negb (isString mermaidCode) then JNull
  else
    match mermaidCode with
    | JStr code =>
        let cleanedLines := cleanedLinesOf code in
        if (List.length cleanedLines =? 0)%nat
           || negb (startsWith GRAPH (nth 0 cleanedLines []))
        then JStr minimalDiagram
        else JStr (join [LF] cleanedLines)
    | _ => JNull
    end.

(** What the loop makes of one line: glyphs stripped, then trimmed. *)
Definition cleanLine (line : jsstring) : jsstring :=
  trim (stripGlyphs line).

(** The content lines of a document: its cleaned lines that are not
    blank. *)
Definition contentLines (mermaidCode : jsstring) : list jsstring :=
  filter truthyStr (List.map cleanLine (splitOn isNewline mermaidCode)).

(** The test of [cleanStep] on a cleaned line. *)
Definition accepts (cleanedLines : list jsstring) (cleaned : jsstring)
  : bool :=
  truthyStr cleaned
  || ((List.length cleanedLines =? 1)%nat
      && startsWith GRAPH (nth 0 cleanedLines [])).

(** The lines [rest], coming after the lines [done], are lines the loop
    of the cleaner leaves as they are. *)
Fixpoint stableFrom (done rest : list jsstring) : Prop :=
  match rest with
  | [] => True
  | r :: rest' =>
      cleanLine r = r /\ sepFree isNewline r /\ accepts done r = true
      /\ stableFrom (done ++ [r]) rest'
  end.

(* ================================================================= *)
(** ** flowchartParser.js: the fallback generator *)

(** [sanitizeForMermaid] *)
Definition sanitizeForMermaid (text : jsstring) : jsstring :=
  substring0 30 (replaceUnit DQUOTE APOSTROPHE text).

(** The [forEach] that adds the nodes: [i] is the index of the first
    phrase of [phrases] in the whole array. *)
Fixpoint addNodes (flowchart : jsstring) (i : N) (phrases : list jsstring)
  : jsstring :=
  match phrases with
  | [] => flowchart
  | phrase :: rest =>
      let nodeId := fromCharCode (65 + i) in
      addNodes
        (flowchart ++ js "    " ++ nodeId ++ js "["
           ++ sanitizeForMermaid phrase ++ js "]" ++ [LF])
        (i + 1) rest
  end.

(** The [for] loop that adds the connections, [count] iterations
    starting at index [i]. *)
Fixpoint addConnections (flowchart : jsstring) (i : N) (count : nat)
  : jsstring :=
  match count with
  | O => flowchart
  | S count' =>
      let currentNodeId := fromCharCode (65 + i) in
      let nextNodeId := fromCharCode (65 + i + 1) in
      addConnections
        (flowchart ++ js "    " ++ currentNodeId ++ js " --> "
           ++ nextNodeId ++ [LF])
        (i + 1) count'
  end.

Definition generateFallbackFlowchart (phrases : list jsstring) : jsstring :=
  let flowchart := js "flowchart TD" ++ [LF] in
  let flowchart := addNodes flowchart 0 phrases in
  addConnections flowchart 0 (List.length phrases - 1).

(** The separators of [/[,.;:]/]. *)
Definition isClauseSeparator (c : N) : bool :=
  (c =? 44) || (c =? 46) || (c =? 59) || (c =? 58).

(** The phrases extracted at the top of [parseFlowchartInput]. *)
Definition extractPhrases (input : jsstring) : list jsstring :=
  firstn 5
    (filter (fun p => (0 <? List.length p)%nat)
       (List.map trim (splitOn isClauseSeparator input))).


(* ================================================================= *)
(** ** Regular expressions

    The constructs used by the regular expression literals of the source,
    matched by backtracking as ECMAScript prescribes: alternatives left to
    right, quantifiers greedy, an iteration of [*] that consumes nothing
    rejected. *)

Module Re.

Inductive regex : Type :=
| Unit (c : N)                 (* a literal code unit *)
| Class (p : N -> bool)        (* a character class or escape *)
| Seq (r1 r2 : regex)
| Alt (r1 r2 : regex)          (* r1|r2 *)
| Star (r : regex)             (* r* *)
| Opt (r : regex)              (* r? *)
| Group (r : regex).           (* (r), capturing *)

(** [r+] *)
Definition Plus (r : regex) : regex := Seq r (Star r).

(** A literal sequence of code units. *)
Fixpoint Lit (s : jsstring) : regex :=
  match s with
  | [] => Star (Class (fun _ => false))
  | [c] => Unit c
  | c :: s' => Seq (Unit c) (Lit s')
  end.

Section Matcher.
Variable A : Type.

(** [rmatch r s caps k]: match [r] at the start of [s], then continue
    with [k] on the rest of the input and the captures so far. *)
Fixpoint rmatch (r : regex) (s : jsstring) (caps : list jsstring)
    (k : jsstring -> list jsstring -> option A) {struct r} : option A :=
  match r with
  | Unit c =>
      match s with
      | x :: s' => if x =? c then k s' caps else None
      | [] => None
      end
  | Class p =>
      match s with
      | x :: s' => if p x then k s' caps else None
      | [] => None
      end
  | Seq r1 r2 => rmatch r1 s caps (fun s1 caps1 => rmatch r2 s1 caps1 k)
  | Alt r1 r2 =>
      match rmatch r1 s caps k with
      | Some a => Some a
      | None => rmatch r2 s caps k
      end
  | Opt r1 =>
      match rmatch r1 s caps k with
      | Some a => Some a
      | None => k s caps
      end
  | Star r1 =>
      (fix iterate (fuel : nat) (s : jsstring) (caps : list jsstring)
           {struct fuel} : option A :=
         match fuel with
         | O => k s caps
         | S fuel' =>
             match rmatch r1 s caps
                     (fun s1 caps1 =>
                        if (List.length s1 <? List.length s)%nat
                        then iterate fuel' s1 caps1
                        else None)
             with
             | Some a => Some a
             | None => k s caps
             end
         end) (List.length s) s caps
  | Group r1 =>
      rmatch r1 s caps
        (fun s1 caps1 =>
           k s1 (caps1 ++ [firstn (List.length s - List.length s1) s]))
  end.
End Matcher.

(** A match of [r] at the start of [s]: the number of code units it
    consumes and its captures. *)
Definition matchAt (r : regex) (s : jsstring)
  : option (nat * list jsstring) :=
  rmatch r s []
    (fun rest caps => Some ((List.length s - List.length rest)%nat, caps)).

(** Replacement patterns: literal text and [$n]. *)
Inductive piece : Type :=
| Text (s : jsstring)
| Cap (n : nat).

Definition expand (template : list piece) (caps : list jsstring)
  : jsstring :=
  flat_map (fun p => match p with
                     | Text s => s
                     | Cap n => nth (n - 1) caps []
                     end) template.

(** [s.replace(/r/g, template)], scanning left to right; [skip] counts the
    code units of the current match that are still to be passed over. *)
Fixpoint replaceFrom (r : regex) (template : list piece) (s : jsstring)
    (skip : nat) : jsstring :=
  match s with
  | [] =>
      match matchAt r [] with
      | Some (_, caps) => expand template caps
      | None => []
      end
  | c :: s' =>
      match skip with
      | S skip' => replaceFrom r template s' skip'
      | O =>
          match matchAt r s with
          | Some (O, caps) =>
              expand template caps ++ c :: replaceFrom r template s' 0
          | Some (S n, caps) =>
              expand template caps ++ replaceFrom r template s' n
          | None => c :: replaceFrom r template s' 0
          end
      end
  end.

Definition replaceAll (r : regex) (template : list piece) (s : jsstring)
  : jsstring :=
  replaceFrom r template s 0.

(** [s.split(/r/)] for a regular expression without capturing groups;
    [current] holds the code units since the end of the last separator. *)
Fixpoint splitFrom (r : regex) (s current : jsstring) (skip : nat)
  : list jsstring :=
  match s with
  | [] => [current]
  | c :: s' =>
      match skip with
      | S skip' => splitFrom r s' [] skip'
      | O =>
          match matchAt r s, current with
          | Some (S n, _), _ => current :: splitFrom r s' [] n
          | Some (O, _), _ :: _ => current :: splitFrom r s' [c] 0
          | _, _ => splitFrom r s' (current ++ [c]) 0
          end
      end
  end.

Definition split (r : regex) (s : jsstring) : list jsstring :=
  match s with
  | [] => match matchAt r [] with Some _ => [] | None => [[]] end
  | _ :: _ => splitFrom r s [] 0
  end.

End Re.

(* ================================================================= *)
(** ** MermaidRenderer.jsx: the normalisation of the chart *)

Definition notNewline (c : N) : bool := negb (c =? LF).
Definition notBar (c : N) : bool := negb (c =? 124).
Definition ws : Re.regex := Re.Class isWhiteSpace.

(** [/\\n/g] *)
Definition reEscapedNewline : Re.regex := Re.Lit [BACKSLASH; 110].
(** [/\\r/g] *)
Definition reEscapedReturn : Re.regex := Re.Lit [BACKSLASH; 114].
(** [/\r\n?/g] *)
Definition reCRLF : Re.regex := Re.Seq (Re.Unit CR) (Re.Opt (Re.Unit LF)).
(** [/\s*-->\s*\n\s*/g] *)
Definition reBrokenArrow : Re.regex :=
  Re.Seq (Re.Star ws)
    (Re.Seq (Re.Lit ARROW)
       (Re.Seq (Re.Star ws) (Re.Seq (Re.Unit LF) (Re.Star ws)))).
(** [/\n\s*\|([^|]+)\|\s*/g] *)
Definition reBrokenLabel : Re.regex :=
  Re.Seq (Re.Unit LF)
    (Re.Seq (Re.Star ws)
       (Re.Seq (Re.Unit 124)
          (Re.Seq (Re.Group (Re.Plus (Re.Class notBar)))
             (Re.Seq (Re.Unit 124) (Re.Star ws))))).
(** [/([^\n])(graph TD)/g] *)
Definition reInlineHeader : Re.regex :=
  Re.Seq (Re.Group (Re.Class notNewline)) (Re.Group (Re.Lit GRAPH_TD)).
(** [/(\]|\})([\w])/g] *)
Definition reGluedNode : Re.regex :=
  Re.Seq (Re.Group (Re.Alt (Re.Unit 93) (Re.Unit 125)))
    (Re.Group (Re.Class isWordChar)).
(** [/(-->)([^\n])/g] *)
Definition reArrowNoSpace : Re.regex :=
  Re.Seq (Re.Group (Re.Lit ARROW)) (Re.Group (Re.Class notNewline)).

(** [normalizedChart], the chain of [replace] calls on [chart]. *)
Definition normalizeChart (chart : jsstring) : jsstring :=
  let s := Re.replaceAll reEscapedNewline [Re.Text [LF]] chart in
  let s := Re.replaceAll reEscapedReturn [Re.Text []] s in
  let s := Re.replaceAll reCRLF [Re.Text [LF]] s in
  let s := Re.replaceAll reBrokenArrow [Re.Text (js " --> ")] s in
  let s := Re.replaceAll reBrokenLabel
             [Re.Text (js "|"); Re.Cap 1; Re.Text (js "|")] s in
  let s := Re.replaceAll reInlineHeader
             [Re.Cap 1; Re.Text [LF]; Re.Cap 2] s in
  let s := Re.replaceAll reGluedNode
             [Re.Cap 1; Re.Text [LF]; Re.Cap 2] s in
  Re.replaceAll reArrowNoSpace
    [Re.Cap 1; Re.Text (js " "); Re.Cap 2] s.

(* ================================================================= *)
(** ** Diagram.jsx: the state of the page and analyzeInput *)

Inductive Level : Type := severe | warning | info.

Record InputWarning : Type := {
  level : Level;
  message : jsstring
}.

(** The [useState] cells of [DiagramPage].  [selected] is [null] until a
    diagram type is chosen. *)
Record PageState : Type := {
  selected : option jsstring;
  input : jsstring;
  mermaidCode : jsval;
  loading : bool;
  error : option jsstring;
  showDSL : bool;
  inputWarning : option InputWarning
}.

Definition setInputWarning (w : option InputWarning) (st : PageState)
  : PageState :=
  {| selected := selected st; input := input st;
     mermaidCode := mermaidCode st; loading := loading st;
     error := error st; showDSL := showDSL st; inputWarning := w |}.

Definition setError (e : option jsstring) (st : PageState) : PageState :=
  {| selected := selected st; input := input st;
     mermaidCode := mermaidCode st; loading := loading st;
     error := e; showDSL := showDSL st; inputWarning := inputWarning st |}.

Definition setLoading (b : bool) (st : PageState) : PageState :=
  {| selected := selected st; input := input st;
     mermaidCode := mermaidCode st; loading := b;
     error := error st; showDSL := showDSL st;
     inputWarning := inputWarning st |}.

Definition setMermaidCode (code : jsval) (st : PageState) : PageState :=
  {| selected := selected st; input := input st;
     mermaidCode := code; loading := loading st;
     error := error st; showDSL := showDSL st;
     inputWarning := inputWarning st |}.

Definition setInput (text : jsstring) (st : PageState) : PageState :=
  {| selected := selected st; input := text;
     mermaidCode := mermaidCode st; loading := loading st;
     error := error st; showDSL := showDSL st;
     inputWarning := inputWarning st |}.

(** [text.split(/\s+/).filter(word => word.length > 0).length] *)
Definition wordCountOf (text : jsstring) : N :=
  N.of_nat
    (List.length
       (filter (fun word => (0 <? List.length word)%nat)
          (Re.split (Re.Plus ws) text))).

(** The argument [analyzeInput] passes to [setInputWarning]. *)
Definition inputWarningFor (text : jsstring) : option InputWarning :=
  let length := jsLength text in
  let wordCount := wordCountOf text in
  let counts :=
    js "(" ++ decimal length ++ js " chars, " ++ decimal wordCount
    ++ js " words)." in
  if 3000 <? length then
    Some {| level := severe;
            message := js "Very long input " ++ counts
                       ++ js " Will be processed in chunks." |}
  else if 2000 <? length then
    Some {| level := warning;
            message := js "Long input " ++ counts
                       ++ js " May be simplified for better processing." |}
  else if 1000 <? length then
    Some {| level := info;
            message := js "Medium input " ++ counts
                       ++ js " Should process well." |}
  else None.

Definition analyzeInput (text : jsstring) (st : PageState) : PageState :=
  setInputWarning (inputWarningFor text) st.

Definition FLOWCHART : jsstring := js "Flowchart".

Definition isFlowchartSelected (st : PageState) : bool :=
  match selected st with
  | Some name => if list_eq_dec N.eq_dec name FLOWCHART then true else false
  | None => false
  end.

Definition handleInputChange (newValue : jsstring) (st : PageState)
  : PageState :=
  let st := setInput newValue st in
  if isFlowchartSelected st then analyzeInput newValue st
  else setInputWarning None st.

(* ================================================================= *)
(** ** The remote services and the effects of a submission

    The two HTTP services are outside the program: a [World] fixes what
    each answers to a request.  A submission is run in a monad that
    threads the log of observable effects and propagates exceptions. *)

Inductive HttpOutcome : Type :=
| NetworkFailure (message : jsstring)              (* [fetch] rejects *)
| Response (ok : bool) (status : N) (body : result jsval).
                                       (* [body] is [await response.json()] *)

Record World : Type := {
  backendFetch : jsstring -> HttpOutcome;  (* /api/diagrams/create-flowchart *)
  apiFetch : jsstring -> HttpOutcome       (* /generate-flowchart *)
}.

Inductive Event : Type :=
| BackendRequest (text : jsstring)
| ApiRequest (prompt : jsstring)
| ToastWarning (text : jsstring).

Definition M (A : Type) : Type := list Event -> result A * list Event.

Definition ret {A} (a : A) : M A := fun log => (Ok a, log).

Definition throw {A} (message : jsstring) : M A :=
  fun log => (Throw message, log).

Definition bind {A B} (m : M A) (f : A -> M B) : M B :=
  fun log =>
    match m log with
    | (Ok a, log') => f a log'
    | (Throw e, log') => (Throw e, log')
    end.

Definition catch {A} (m : M A) (handler : jsstring -> M A) : M A :=
  fun log =>
    match m log with
    | (Ok a, log') => (Ok a, log')
    | (Throw e, log') => handler e log'
    end.

Definition emit (e : Event) : M unit := fun log => (Ok tt, log ++ [e]).

Definition lift {A} (r : result A) : M A := fun log => (r, log).

Declare Scope js_scope.
Delimit Scope js_scope with js.
Notation "x <- m ;; k" := (bind m (fun x => k))
  (at level 61, m at next level, right associativity) : js_scope.
Notation "m ;; k" := (bind m (fun _ => k))
  (at level 61, right associativity) : js_scope.
Local Open Scope js_scope.

(** Diagram.jsx: [createFlowchartFromBackend] *)
Definition createFlowchartFromBackend (w : World) (text : jsstring)
  : M jsval :=
  catch
    (emit (BackendRequest text) ;;
     match backendFetch w text with
     | NetworkFailure m => throw m
     | Response ok status body =>
         if negb ok
         then throw (js "HTTP error! Status: " ++ decimal status)
         else
           result <- lift body ;;
           data <- lift (getProp result (js "data")) ;;
           if truthy data then
             mermaid <- lift (getProp data (js "mermaid")) ;;
             if truthy mermaid
             then ret (JObj [(js "mermaid", mermaid)])
             else throw (js "No Mermaid data in response")
           else throw (js "No Mermaid data in response")
     end)
    (fun error => throw error).

(** flowchartParser.js: [generateFlowchartFromAPI].  The validations that
    are only logged call [split], [startsWith] and [includes] on
    [data.flowchart || ''], which throws when that value is not a
    string. *)
Definition generateFlowchartFromAPI (w : World) (prompt : jsstring)
  : M jsval :=
  catch
    (emit (ApiRequest prompt) ;;
     match apiFetch w prompt with
     | NetworkFailure m => throw m
     | Response ok status body =>
         data <- lift body ;;
         field <- lift (getProp data (js "flowchart")) ;;
         let flowchart := if truthy field then field else JStr [] in
         (if isString flowchart then ret tt
          else throw (js "flowchart.split is not a function")) ;;
         if negb ok
         then throw (js "HTTP error! status: " ++ decimal status)
         else if truthy field then ret field
         else throw (js "Invalid flowchart format received from API")
     end)
    (fun error => throw error).

(** The diagram returned by the outer [catch] of [parseFlowchartInput]. *)
Definition errorDiagram (message : jsstring) : jsstring :=
  js "flowchart TD" ++ [LF]
  ++ js "    A[Start] " ++ [LF]
  ++ js "    B[" ++ quoted (js "Error: "
                            ++ replaceUnit DQUOTE APOSTROPHE message)
  ++ js "]" ++ [LF]
  ++ js "    C[End]" ++ [LF]
  ++ js "    A --> B" ++ [LF]
  ++ js "    B --> C".

(** The test [result && (result.trim().startsWith("flowchart") ||
    result.trim().startsWith("graph"))] and what follows it. *)
Definition checkApiResult (result : jsval) : M jsstring :=
  if truthy result then
    match result with
    | JStr r =>
        if startsWith (js "flowchart") (trim r)
           || startsWith GRAPH (trim r)
        then ret r
        else throw (js "API returned invalid flowchart syntax")
    | _ => throw (js "result.trim is not a function")
    end
  else throw (js "API returned invalid flowchart syntax").

(** flowchartParser.js: [parseFlowchartInput] *)
Definition parseFlowchartInput (w : World) (input : jsstring)
  : M jsstring :=
  catch
    (let phrases := extractPhrases input in
     catch
       (result <- generateFlowchartFromAPI w input ;;
        checkApiResult result)
       (fun apiError => ret (generateFallbackFlowchart phrases)))
    (fun message => ret (errorDiagram message)).

(** [selected || 'Process'] *)
Definition selectedOrProcess (st : PageState) : jsstring :=
  match selected st with
  | Some (c :: name) => c :: name
  | _ => js "Process"
  end.

(** The template literal [handleSubmit] falls back to. *)
Definition submitFallbackDiagram (st : PageState) : jsstring :=
  js "graph TD" ++ [LF]
  ++ js "      A[" ++ quoted (js "Start") ++ js "] --> B["
  ++ quoted (selectedOrProcess st) ++ js "] --> C["
  ++ quoted (js "End") ++ js "]".

(** The [try] block of [handleSubmit] up to the value of
    [generatedDiagram]. *)
Definition generateDiagram (w : World) (st : PageState) : M jsval :=
  if isFlowchartSelected st then
    catch
      (result <- createFlowchartFromBackend w (input st) ;;
       lift (getProp result (js "mermaid")))
      (fun backendError =>
         diagram <- parseFlowchartInput w (input st) ;;
         emit (ToastWarning (js "Used fallback processing")) ;;
         ret (JStr diagram))
  else
    diagram <- parseFlowchartInput w (input st) ;;
    ret (JStr diagram).

Definition PLEASE_ENTER : jsstring := js "Please enter a description".

(** Diagram.jsx: [handleSubmit].  The result is the state of the page
    when the handler has finished and the log of its effects. *)
Definition handleSubmit (w : World) (st : PageState)
  : PageState * list Event :=
  if negb (truthyStr (trim (input st)))
  then (setError (Some PLEASE_ENTER) st, [])
  else
    let st := setLoading true st in
    let st := setError None st in
    let st := setMermaidCode (JStr []) st in
    let (outcome, log) := generateDiagram w st [] in
    let st :=
      match outcome with
      | Ok generatedDiagram =>
          setMermaidCode
            (if truthy generatedDiagram then generatedDiagram
             else JStr (submitFallbackDiagram st)) st
      | Throw message =>
          let st :=
            setError (Some (js "Failed to generate diagram: " ++ message))
              st in
          setMermaidCode (JStr (submitFallbackDiagram st)) st
      end in
    (setLoading false st, log).

(* ================================================================= *)
(** ** The structure of a fallback document, and sample inputs *)

(** The test [parseFlowchartInput] applies to the answer of the API: the
    trimmed text starts with [flowchart] or [graph]. *)
Definition headerOk (d : jsstring) : bool :=
  startsWith (js "flowchart") (trim d) || startsWith GRAPH (trim d).

(** The identifier of the node created [k]-th, counting from 0. *)
Definition nodeId (k : nat) : jsstring := fromCharCode (65 + N.of_nat k).

(** The label of a node: the clause cut to 30 code units, its double
    quotes replaced by apostrophes. *)
Definition nodeLabel (phrase : jsstring) : jsstring :=
  replaceUnit DQUOTE APOSTROPHE (firstn 30 phrase).

(** The declaration of a rectangular node. *)
Definition nodeLine (k : nat) (phrase : jsstring) : jsstring :=
  js "    " ++ nodeId k ++ js "[" ++ nodeLabel phrase ++ js "]".

(** An unlabelled edge from node [k] to its successor. *)
Definition edgeLine (k : nat) : jsstring :=
  js "    " ++ nodeId k ++ js " --> " ++ nodeId (k + 1).

(** The lines of a linear chain over the phrases: the header, one node
    per phrase, one edge per pair of consecutive nodes. *)
Definition linearChain (phrases : list jsstring) : list jsstring :=
  js "flowchart TD"
  :: List.map (fun kp => nodeLine (fst kp) (snd kp))
       (combine (seq 0 (List.length phrases)) phrases)
  ++ List.map edgeLine (seq 0 (List.length phrases - 1)).

(** A document whose lines each end with a line feed. *)
Definition unlines (lines : list jsstring) : jsstring :=
  List.concat (List.map (fun l => l ++ [LF]) lines).

(** A page on which the flowchart type is selected and a short
    description typed. *)
Definition samplePage : PageState :=
  {| selected := Some FLOWCHART; input := js "hello";
     mermaidCode := JStr []; loading := false; error := None;
     showDSL := false; inputWarning := None |}.

(** Neither service can be reached. *)
Definition offlineWorld : World :=
  {| backendFetch := fun _ => NetworkFailure (js "Failed to fetch");
     apiFetch := fun _ => NetworkFailure (js "Failed to fetch") |}.

(** The chart the pipeline hands to the renderer for the text
    [collect data, save] when neither service can be reached. *)
Definition sampleChart : jsstring :=
  generateFallbackFlowchart (extractPhrases (js "collect data, save")).

(* ================================================================= *)
(** ** What the services answer *)

(** The backend answers the text with the truthy value [m]: the response
    is ok, its body is JSON and [body.data.mermaid] is [m]. *)
Definition backendAnswers (w : World) (text : jsstring) (m : jsval) : Prop :=
  exists status body data,
    backendFetch w text = Response true status (Ok body)
    /\ getProp body (js "data") = Ok data
    /\ getProp data (js "mermaid") = Ok m
    /\ truthy m = true.

(** The API answers the text with the non-empty string [r]: the response
    is ok, its body is JSON and [body.flowchart] is [r]. *)
Definition apiAnswers (w : World) (text : jsstring) (r : jsstring) : Prop :=
  exists status body,
    apiFetch w text = Response true status (Ok body)
    /\ getProp body (js "flowchart") = Ok (JStr r)
    /\ r <> [].

(** A description of one clause that holds line feeds, brackets and
    braces. *)
Definition injectedText : jsstring :=
  js "go]" ++ [LF] ++ js "A --> A" ++ [LF] ++ js "Q{ok}" ++ [LF] ++ js "R[x".

(* ================================================================= *)
(** ** Counting words directly *)

(** The number of words that start in [s]: maximal runs of code units
    that are not white space; [inWord] tells whether the unit before
    [s] belongs to a word. *)
Fixpoint countWords (s : jsstring) (inWord : bool) : nat :=
  match s with
  | [] => 0
  | c :: s' =>
      if isWhiteSpace c then countWords s' false
      else (if inWord then 0 else 1) + countWords s' true
  end.

(** The number of pieces that are not empty. *)
Definition nonEmptyCount (pieces : list jsstring) : nat :=
  List.length (filter (fun word => (0 <? List.length word)%nat) pieces).

(* ================================================================= *)
(** ** Diagram.jsx: convertReactFlowToMermaid *)

(** A node of the ReactFlow data: [node.id], [node.type] and
    [node.data?.label], which may be missing. *)
Record FlowNode : Type := {
  node_id : jsstring;
  node_type : option jsstring;
  node_label : option jsstring
}.

(** An edge: [edge.source], [edge.target] and [edge.label]. *)
Record FlowEdge : Type := {
  edge_source : jsstring;
  edge_target : jsstring;
  edge_label : option jsstring
}.

(** [reactflowData]: its [nodes] and [edges] may be missing. *)
Record ReactFlowData : Type := {
  flow_nodes : option (list FlowNode);
  flow_edges : option (list FlowEdge)
}.

(** [label.replace(/[...]/g, ' ').trim()], where the character class
    holds the double quote and the line feed. *)
Definition cleanLabelOf (label : jsstring) : jsstring :=
  trim (List.map (fun c => if (c =? DQUOTE) || (c =? LF) then 32 else c)
          label).

Definition isType (name : jsstring) (t : option jsstring) : bool :=
  match t with
  | Some s => if list_eq_dec N.eq_dec s name then true else false
  | None => false
  end.

(** The text one node adds to [mermaid]. *)
Definition nodeText (node : FlowNode) : jsstring :=
  let label :=
    match node_label node with
    | Some (c :: l) => c :: l
    | _ => node_id node
    end in
  let cleanLabel := cleanLabelOf label in
  if isType (js "input") (node_type node) then
    js "  " ++ node_id node ++ js "([" ++ quoted cleanLabel ++ js "])" ++ [LF]
  else if isType (js "output") (node_type node) then
    js "  " ++ node_id node ++ js "([" ++ quoted cleanLabel ++ js "])" ++ [LF]
  else if includes (js "?") cleanLabel || includes (js "decision") cleanLabel
  then js "  " ++ node_id node ++ js "{" ++ cleanLabel ++ js "}" ++ [LF]
  else js "  " ++ node_id node ++ js "[" ++ quoted cleanLabel ++ js "]" ++ [LF].

(** The text one edge adds to [mermaid]. *)
Definition edgeText (edge : FlowEdge) : jsstring :=
  match edge_label edge with
  | Some (c :: l) =>
      js "  " ++ edge_source edge ++ js " -->|" ++ (c :: l) ++ js "| "
      ++ edge_target edge ++ [LF]
  | _ =>
      js "  " ++ edge_source edge ++ js " --> " ++ edge_target edge ++ [LF]
  end.

Definition convertReactFlowToMermaid (reactflowData : option ReactFlowData)
  : result jsstring :=
  match reactflowData with
  | None => Throw (js "Invalid ReactFlow data")
  | Some data =>
      match flow_nodes data with
      | None => Throw (js "Invalid ReactFlow data")
      | Some nodes =>
          let mermaid := js "graph TD" ++ [LF] in
          let mermaid :=
            fold_left (fun acc node => acc ++ nodeText node) nodes mermaid in
          let mermaid :=
            match flow_edges data with
            | Some edges =>
                fold_left (fun acc edge => acc ++ edgeText edge) edges mermaid
            | None => mermaid
            end in
          Ok mermaid
      end
  end.


(** ReactFlow data with a start node, a question whose label holds a
    double quote and a line feed, and one labelled edge. *)
Definition sampleFlow : ReactFlowData :=
  {| flow_nodes :=
       Some [ {| node_id := js "n1"; node_type := Some (js "input");
                 node_label := Some (js "Start") |};
              {| node_id := js "n2"; node_type := None;
                 node_label :=
                   Some (js "is it " ++ quoted (js "ok") ++ [LF] ++ js "?") |} ];
     flow_edges :=
       Some [ {| edge_source := js "n1"; edge_target := js "n2";
                 edge_label := Some (js "next") |} ] |}.

(** No line feed in the source, the target and the label of an edge. *)
Definition plainEdge (e : FlowEdge) : Prop :=
  sepFree isNewline (edge_source e) /\ sepFree isNewline (edge_target e)
  /\ match edge_label e with
     | Some l => sepFree isNewline l
     | None => True
     end.

(* ================================================================= *)
(** ** What a regular expression matches *)

(** [Matches r u caps]: the regular expression [r] can match exactly the
    text [u], recording the captures [caps]. *)
Inductive Matches : Re.regex -> jsstring -> list jsstring -> Prop :=
| MatchUnit c : Matches (Re.Unit c) [c] []
| MatchClass (p : N -> bool) x : p x = true -> Matches (Re.Class p) [x] []
| MatchSeq r1 r2 u1 u2 c1 c2 :
    Matches r1 u1 c1 -> Matches r2 u2 c2 ->
    Matches (Re.Seq r1 r2) (u1 ++ u2) (c1 ++ c2)
| MatchAltLeft r1 r2 u c : Matches r1 u c -> Matches (Re.Alt r1 r2) u c
| MatchAltRight r1 r2 u c : Matches r2 u c -> Matches (Re.Alt r1 r2) u c
| MatchStarEnd r : Matches (Re.Star r) [] []
| MatchStarMore r u1 u2 c1 c2 :
    Matches r u1 c1 -> Matches (Re.Star r) u2 c2 ->
    Matches (Re.Star r) (u1 ++ u2) (c1 ++ c2)
| MatchOptNone r : Matches (Re.Opt r) [] []
| MatchOptSome r u c : Matches r u c -> Matches (Re.Opt r) u c
| MatchGroup r u c : Matches r u c -> Matches (Re.Group r) u (c ++ [u]).

(** The literal text of a replacement pattern. *)
Definition templateText (template : list Re.piece) : jsstring :=
  flat_map (fun p => match p with
                     | Re.Text s => s
                     | Re.Cap _ => []
                     end) template.

(* ================================================================= *)
(** * Properties *)

(** ** Facts about the string primitives *)

Section StringFacts.

Lemma startsWith_prefix p s :
  startsWith p s = true <-> exists rest, s = p ++ rest.
Proof.
  revert s; induction p as [|a p IH]; intros s; simpl.
  - split; [intros _; now exists s | reflexivity].
  - destruct s as [|b s].
    + split; [discriminate | intros [rest H]; discriminate].
    + rewrite andb_true_iff, N.eqb_eq, IH. split.
      * intros [-> [rest ->]]. now exists rest.
      * intros [rest H]. injection H as -> ->. split; eauto.
Qed.

Lemma includes_Contains t s : includes t s = true <-> Contains t s.
Proof.
  induction s as [|c s IH]; simpl.
  - rewrite orb_false_r, startsWith_prefix. split.
    + intros [rest H]. exists [], rest. exact H.
    + intros [before [after H]].
      destruct before; [now exists after | discriminate].
  - rewrite orb_true_iff, startsWith_prefix, IH. split.
    + intros [[rest H] | [before [after H]]].
      * exists [], rest. exact H.
      * exists (c :: before), after. now rewrite H.
    + intros [before [after H]]. destruct before as [|b before].
      * left. now exists after.
      * right. injection H as _ H. now exists before, after.
Qed.

Lemma includes_false t s : includes t s = false <-> ~ Contains t s.
Proof.
  rewrite <- includes_Contains.
  destruct (includes t s); split; congruence.
Qed.

Lemma Contains_unit c s : Contains [c] s <-> In c s.
Proof.
  split.
  - intros [before [after ->]]. apply in_or_app. right. now left.
  - intros H. apply in_split in H as [before [after ->]].
    now exists before, after.
Qed.

(** *** Trimming *)

Lemma trimEnd_cons_keep c s :
  isWhiteSpace c = false -> trimEnd (c :: s) = c :: trimEnd s.
Proof.
  intros H. simpl. rewrite H. now destruct (trimEnd s).
Qed.

Lemma trimEnd_cons_nonempty c s :
  trimEnd s <> [] -> trimEnd (c :: s) = c :: trimEnd s.
Proof.
  intros H. simpl. destruct (trimEnd s); [contradiction | reflexivity].
Qed.

Lemma trimEnd_app_keep s1 c s2 :
  isWhiteSpace c = false ->
  trimEnd (s1 ++ c :: s2) = s1 ++ c :: trimEnd s2.
Proof.
  intros H. induction s1 as [|a s1 IH].
  - now apply trimEnd_cons_keep.
  - change ((a :: s1) ++ c :: s2) with (a :: (s1 ++ c :: s2)).
    rewrite trimEnd_cons_nonempty; rewrite IH; [reflexivity|].
    now destruct s1.
Qed.

Lemma trimEnd_blank s :
  trimEnd s = [] <-> forallb isWhiteSpace s = true.
Proof.
  induction s as [|c s IH]; simpl; [tauto|].
  destruct (trimEnd s) eqn:E.
  - destruct (isWhiteSpace c); simpl.
    + rewrite <- IH. tauto.
    + split; discriminate.
  - split; [discriminate|]. rewrite andb_true_iff. intros [_ H].
    apply IH in H. discriminate.
Qed.

Lemma trimStart_blank s :
  trimStart s = [] <-> forallb isWhiteSpace s = true.
Proof.
  induction s as [|c s IH]; simpl; [tauto|].
  destruct (isWhiteSpace c); simpl; [exact IH | split; discriminate].
Qed.

Lemma forallb_trimStart s :
  forallb isWhiteSpace (trimStart s) = forallb isWhiteSpace s.
Proof.
  induction s as [|c s IH]; simpl; [reflexivity|].
  destruct (isWhiteSpace c) eqn:E; simpl; [exact IH | now rewrite E].
Qed.

(** A string trims to nothing exactly when it is empty or made of
    white space only. *)
Lemma trim_blank s : trim s = [] <-> forallb isWhiteSpace s = true.
Proof.
  unfold trim. now rewrite trimEnd_blank, forallb_trimStart.
Qed.

Lemma trimStart_head s :
  match trimStart s with
  | [] => True
  | c :: _ => isWhiteSpace c = false
  end.
Proof.
  induction s as [|c s IH]; simpl; [exact I|].
  destruct (isWhiteSpace c) eqn:E; [exact IH | exact E].
Qed.

Lemma trimStart_fixed c s :
  isWhiteSpace c = false -> trimStart (c :: s) = c :: s.
Proof. intros H. simpl. now rewrite H. Qed.

Lemma trimEnd_idem s : trimEnd (trimEnd s) = trimEnd s.
Proof.
  induction s as [|c s IH]; simpl; [reflexivity|].
  destruct (trimEnd s) as [|d t] eqn:E.
  - destruct (isWhiteSpace c) eqn:W; simpl; [reflexivity | now rewrite W].
  - rewrite trimEnd_cons_nonempty; rewrite IH; [reflexivity | discriminate].
Qed.

Lemma trim_head s :
  match trim s with
  | [] => True
  | c :: _ => isWhiteSpace c = false
  end.
Proof.
  unfold trim. pose proof (trimStart_head s) as H.
  destruct (trimStart s) as [|c t]; [exact I|].
  rewrite trimEnd_cons_keep by exact H. exact H.
Qed.

Lemma trim_idem s : trim (trim s) = trim s.
Proof.
  pose proof (trim_head s) as H. unfold trim at 1.
  destruct (trim s) as [|c t] eqn:E; [reflexivity|].
  rewrite trimStart_fixed by exact H.
  rewrite <- E. unfold trim. apply trimEnd_idem.
Qed.

Lemma In_trimStart x s : In x (trimStart s) -> In x s.
Proof.
  induction s as [|c s IH]; simpl; [tauto|].
  destruct (isWhiteSpace c); simpl; tauto.
Qed.

Lemma In_trimEnd x s : In x (trimEnd s) -> In x s.
Proof.
  induction s as [|c s IH]; simpl; [tauto|].
  destruct (trimEnd s) as [|d t].
  - destruct (isWhiteSpace c); simpl; tauto.
  - intros [H | H]; [now left | right; now apply IH].
Qed.

Lemma In_trim x s : In x (trim s) -> In x s.
Proof. intros H. now apply In_trimStart, In_trimEnd. Qed.

(** A string that starts with white space padding and whose first
    visible unit is [c]. *)
Lemma trim_padded pad c s :
  forallb isWhiteSpace pad = true -> isWhiteSpace c = false ->
  trim (pad ++ c :: s) = c :: trimEnd s.
Proof.
  intros Hp Hc. unfold trim.
  assert (trimStart (pad ++ c :: s) = c :: s) as ->.
  { induction pad as [|a pad IH]; simpl in *.
    - now rewrite Hc.
    - apply andb_true_iff in Hp as [-> Hp]. now apply IH. }
  now apply trimEnd_cons_keep.
Qed.

(** *** Occurrences survive trimming *)

Lemma Contains_trimStart t c s :
  isWhiteSpace c = false -> Contains (c :: t) s ->
  Contains (c :: t) (trimStart s).
Proof.
  intros Hc. induction s as [|a s IH]; intros [before [after H]].
  - destruct before; discriminate.
  - simpl. destruct (isWhiteSpace a) eqn:Ha.
    + destruct before as [|b before].
      * injection H as -> _. congruence.
      * injection H as _ H. apply IH. now exists before, after.
    + now exists before, after.
Qed.

Lemma Contains_nonempty t c s : Contains (c :: t) s -> s <> [].
Proof. intros [before [after ->]]. now destruct before. Qed.

Lemma Contains_trimEnd t s :
  (exists t0 c, t = t0 ++ [c] /\ isWhiteSpace c = false) ->
  Contains t s -> Contains t (trimEnd s).
Proof.
  intros [t0 [c [-> Hc]]]. induction s as [|a s IH];
    intros [before [after H]].
  - destruct before, t0; discriminate.
  - destruct before as [|b before].
    + simpl in H. rewrite H. rewrite <- app_assoc. simpl.
      rewrite trimEnd_app_keep by exact Hc.
      exists [], (trimEnd after). now rewrite <- app_assoc.
    + injection H as -> H.
      assert (Contains (t0 ++ [c]) (trimEnd s)) as HC
          by (apply IH; now exists before, after).
      rewrite trimEnd_cons_nonempty.
      * destruct HC as [b' [a' ->]]. now exists (b :: b'), a'.
      * destruct HC as [b' [a' ->]]. now destruct b', t0.
Qed.

Lemma Contains_of_trim t s : Contains t (trim s) -> Contains t s.
Proof.
  assert (forall u, exists pad, u = pad ++ trimStart u) as HS.
  { induction u as [|a u [pad IH]]; simpl; [now exists []|].
    destruct (isWhiteSpace a); [|now exists []].
    exists (a :: pad). simpl. now rewrite <- IH. }
  assert (forall u, exists pad, u = trimEnd u ++ pad) as HE.
  { induction u as [|a u [pad IH]]; simpl; [now exists []|].
    destruct (trimEnd u) as [|d r] eqn:E.
    - destruct (isWhiteSpace a).
      + exists (a :: u). reflexivity.
      + exists pad. simpl in IH. now rewrite <- IH.
    - exists pad. simpl. simpl in IH. now rewrite <- IH. }
  unfold trim. intros [before [after H]].
  destruct (HS s) as [p1 H1]. destruct (HE (trimStart s)) as [p2 H2].
  rewrite H1, H2, H. exists (p1 ++ before), (after ++ p2).
  now rewrite <- !app_assoc.
Qed.

(** A token whose first and last code units are not white space occurs
    in the trimmed line exactly when it occurs in the line. *)
Lemma Contains_trim t s :
  (exists c t1, t = c :: t1 /\ isWhiteSpace c = false) ->
  (exists t0 c, t = t0 ++ [c] /\ isWhiteSpace c = false) ->
  (Contains t (trim s) <-> Contains t s).
Proof.
  intros [c [t1 [-> Hc]]] Hlast. split; [apply Contains_of_trim|].
  intros H. unfold trim. apply Contains_trimEnd; [exact Hlast|].
  now apply Contains_trimStart.
Qed.

End StringFacts.

(* ================================================================= *)
(** ** The validator *)

Section Validator.

Lemma fold_validateLine lines b :
  fold_left validateLine lines b = b || existsb lineCounts lines.
Proof.
  revert b; induction lines as [|l lines IH]; intros b;
    cbn [fold_left existsb].
  - now rewrite orb_false_r.
  - rewrite IH. unfold validateLine, lineCounts.
    destruct (truthyStr (trim l)), (startsWith GRAPH (trim l)),
      (startsWith CLASSDEF (trim l)), (hasNodeOrEdgeSyntax (trim l)), b;
      reflexivity.
Qed.

Lemma hasNodesIn_existsb d :
  hasNodesIn d = existsb lineCounts (splitOn isNewline d).
Proof. unfold hasNodesIn. now rewrite fold_validateLine. Qed.

Lemma hasNodeOrEdgeSyntax_trim line :
  hasNodeOrEdgeSyntax (trim line) = true <-> HasToken line.
Proof.
  unfold hasNodeOrEdgeSyntax, HasToken.
  rewrite !orb_true_iff, !includes_Contains.
  assert (forall t, (exists c t1, t = c :: t1 /\ isWhiteSpace c = false) ->
                    (exists t0 c, t = t0 ++ [c] /\ isWhiteSpace c = false) ->
                    (Contains t (trim line) <-> Contains t line)) as H
      by (intros; now apply Contains_trim).
  rewrite (H (js "[")), (H (js "(")), (H (js "{")), (H ARROW); [tauto | | | | | | | |].
  all: try (now exists 91, []); try (now exists [], 91).
  all: try (now exists 40, []); try (now exists [], 40).
  all: try (now exists 123, []); try (now exists [], 123).
  - now exists 45, [45; 62].
  - now exists [45; 45], 62.
Qed.

Lemma HasToken_nonempty line : HasToken line -> line <> [].
Proof.
  intros [H | [H | [H | H]]]; revert H; apply Contains_nonempty.
Qed.

Lemma lineCounts_false line :
  lineCounts line = false <->
  (isHeaderOrStyleLine line = false -> ~ HasToken line).
Proof.
  unfold lineCounts, isHeaderOrStyleLine.
  rewrite <- hasNodeOrEdgeSyntax_trim.
  destruct (hasNodeOrEdgeSyntax (trim line)) eqn:T.
  - assert (truthyStr (trim line) = true) as ->.
    { assert (HasToken (trim line)) as T'.
      { unfold hasNodeOrEdgeSyntax in T. unfold HasToken.
        rewrite !orb_true_iff, !includes_Contains in T. tauto. }
      apply HasToken_nonempty in T'.
      unfold truthyStr, truthy. now destruct (trim line). }
    destruct (startsWith GRAPH (trim line)),
      (startsWith CLASSDEF (trim line)); cbn [andb negb orb];
      intuition congruence.
  - rewrite andb_false_r. intuition congruence.
Qed.

End Validator.

Lemma validateMermaidSyntax_string d :
  validateMermaidSyntax (JStr d) =
  (includes GRAPH_TD d || includes GRAPH_LR d) && hasNodesIn d.
Proof.
  unfold validateMermaidSyntax, validateBody.
  destruct d as [|c d].
  - reflexivity.
  - cbn [truthy isString negb orb].
    destruct (includes GRAPH_TD (c :: d)), (includes GRAPH_LR (c :: d)),
      (hasNodesIn (c :: d)); reflexivity.
Qed.

Lemma existsb_lineCounts_false lines :
  existsb lineCounts lines = false <->
  (forall line, In line lines ->
                isHeaderOrStyleLine line = false -> ~ HasToken line).
Proof.
  split.
  - intros H line Hin. apply lineCounts_false.
    destruct (lineCounts line) eqn:E; [|reflexivity].
    rewrite <- H. symmetry. apply existsb_exists. now exists line.
  - intros H. destruct (existsb _ _) eqn:E; [|reflexivity].
    apply existsb_exists in E as [line [Hin E]].
    pose proof (proj2 (lineCounts_false line) (H line Hin)). congruence.
Qed.

(** C6, as stated, fails: the one-line document [graph TD --> A[x]]
    starts with the declaration [graph TD] and its line holds an arrow
    and a bracket, yet the validator rejects it, because a line whose
    trimmed text starts with [graph] is passed over. *)
Lemma validateMermaidSyntax_rejects_declared_tokens :
  validateMermaidSyntax (JStr (js "graph TD --> A[x]")) = false
  /\ startsWith GRAPH_TD (js "graph TD --> A[x]") = true
  /\ In (js "graph TD --> A[x]")
       (splitOn isNewline (js "graph TD --> A[x]"))
  /\ Contains ARROW (js "graph TD --> A[x]")
  /\ Contains (js "[") (js "graph TD --> A[x]").
Proof.
  split; [reflexivity|]. split; [reflexivity|]. split; [now left|].
  split; apply includes_Contains; reflexivity.
Qed.

(** C6, amended.  The validator rejects a document exactly when the text
    holds neither [graph TD] nor [graph LR] anywhere, or when every line
    either has a trimmed text that starts with [graph] or with [classDef]
    (such a line is passed over) or holds no bracket, parenthesis, brace
    or arrow. *)
Theorem validateMermaidSyntax_rejects_iff (d : jsstring) :
  validateMermaidSyntax (JStr d) = false <->
  (~ Contains GRAPH_TD d /\ ~ Contains GRAPH_LR d)
  \/ (forall line,
        In line (splitOn isNewline d) ->
        (exists rest, trim line = js "graph" ++ rest)
        \/ (exists rest, trim line = js "classDef" ++ rest)
        \/ ~ HasToken line).
Proof.
  rewrite validateMermaidSyntax_string, andb_false_iff, orb_false_iff.
  rewrite !includes_false, hasNodesIn_existsb, existsb_lineCounts_false.
  assert (forall line,
             (isHeaderOrStyleLine line = false -> ~ HasToken line) <->
             ((exists rest, trim line = js "graph" ++ rest)
              \/ (exists rest, trim line = js "classDef" ++ rest)
              \/ ~ HasToken line)) as Hline.
  { intros line. unfold isHeaderOrStyleLine.
    pose proof (startsWith_prefix GRAPH (trim line)) as G.
    pose proof (startsWith_prefix CLASSDEF (trim line)) as C.
    destruct (startsWith GRAPH (trim line)),
      (startsWith CLASSDEF (trim line)); cbn [orb]; split.
    all: try (intros _; left; now apply G).
    all: try (intros _; right; left; now apply C).
    all: try (intros _ H; discriminate H).
    - intros H. right. right. now apply H.
    - intros [H | [H | H]] _.
      + apply G in H. discriminate H.
      + apply C in H. discriminate H.
      + exact H. }
  split.
  - intros [H | H]; [now left | right].
    intros line Hin. apply Hline. now apply H.
  - intros [H | H]; [now left | right].
    intros line Hin. apply Hline. now apply H.
Qed.

(** The declaration is looked for as a piece of text: another
    orientation is not recognised, and a declaration inside a label
    counts. *)
Example validateMermaidSyntax_other_orientation :
  validateMermaidSyntax (JStr (js "graph TB" ++ [LF] ++ js "A[x] --> B[y]"))
  = false
  /\ validateMermaidSyntax (JStr (js "A[see graph TD]")) = true.
Proof. split; reflexivity. Qed.

(** A node whose identifier starts with [graph] is passed over like a
    header line. *)
Example validateMermaidSyntax_graph_prefix :
  validateMermaidSyntax
    (JStr (js "graph TD" ++ [LF] ++ js "graphics[Render] --> done"))
  = false.
Proof. reflexivity. Qed.

(** The diagram [handleSubmit] falls back to is accepted. *)
Example validateMermaidSyntax_submit_fallback :
  validateMermaidSyntax (JStr (submitFallbackDiagram samplePage)) = true.
Proof. reflexivity. Qed.

(** C10.  The validator is total: on every value the body of its [try]
    either yields [true] or throws, and a throw is turned into [false];
    on a value that is not a non-empty string the result is [false]. *)
Theorem validateMermaidSyntax_total (v : jsval) :
  ((validateBody v = Ok true /\ validateMermaidSyntax v = true)
   \/ (exists m, validateBody v = Throw m)
      /\ validateMermaidSyntax v = false)
  /\ ((forall c s, v <> JStr (c :: s)) -> validateMermaidSyntax v = false).
Proof.
  split.
  - unfold validateMermaidSyntax, validateBody.
    destruct (negb (truthy v) || negb (isString v)); [right; eauto|].
    destruct v; try (right; eauto; fail).
    destruct (negb (includes GRAPH_TD s) && negb (includes GRAPH_LR s));
      [right; eauto|].
    destruct (negb (hasNodesIn s)); [right; eauto | left; auto].
  - intros H. unfold validateMermaidSyntax, validateBody.
    destruct v as [| | b | z | s | fields];
      try (cbn [isString negb]; rewrite orb_true_r; reflexivity).
    destruct s as [|c s]; [reflexivity | now destruct (H c s)].
Qed.

Lemma validateMermaidSyntax_total_witness :
  validateMermaidSyntax JNull = false
  /\ validateMermaidSyntax JUndefined = false
  /\ validateMermaidSyntax (JStr []) = false
  /\ validateMermaidSyntax (JNum 42) = false.
Proof.
  split; [|split; [|split]].
  - apply (proj2 (validateMermaidSyntax_total JNull)). discriminate.
  - apply (proj2 (validateMermaidSyntax_total JUndefined)). discriminate.
  - apply (proj2 (validateMermaidSyntax_total (JStr []))). discriminate.
  - apply (proj2 (validateMermaidSyntax_total (JNum 42))). discriminate.
Defined.

(* ================================================================= *)
(** ** The input classifier *)

Section Classifier.

Lemma inputWarningFor_level text :
  option_map level (inputWarningFor text) =
  if 3000 <? jsLength text then Some severe
  else if 2000 <? jsLength text then Some warning
  else if 1000 <? jsLength text then Some info
  else None.
Proof.
  unfold inputWarningFor.
  destruct (3000 <? jsLength text); [reflexivity|].
  destruct (2000 <? jsLength text); [reflexivity|].
  destruct (1000 <? jsLength text); reflexivity.
Qed.

(** The handler of a submission never reads the warning cell: setting
    the warning before or after the submission gives the same page and
    the same effects. *)
Lemma handleSubmit_setInputWarning iw w st :
  handleSubmit w (setInputWarning iw st) =
  (setInputWarning iw (fst (handleSubmit w st)), snd (handleSubmit w st)).
Proof.
  unfold handleSubmit.
  change (input (setInputWarning iw st)) with (input st).
  destruct (negb (truthyStr (trim (input st)))); [reflexivity|].
  unfold generateDiagram, isFlowchartSelected, submitFallbackDiagram,
    selectedOrProcess.
  cbn [selected input setMermaidCode setError setLoading setInputWarning
       mermaidCode loading error showDSL inputWarning].
  match goal with
  | |- context [let (_, _) := ?m in _] => destruct m as [[d | msg] log]
  end; reflexivity.
Qed.

End Classifier.

(** C7.  With [n] the number of code units of the text, [analyzeInput]
    sets a severe warning when [n > 3000], a warning when
    [2000 < n <= 3000], an info when [1000 < n <= 2000] and none when
    [n <= 1000]; a text of length 3500 gets a severe warning.  The
    warning is advisory: [analyzeInput] changes no other cell of the
    page, and a submission yields the same document, error and effects
    whether or not it ran. *)
Theorem analyzeInput_severity (text : jsstring) (st : PageState) (w : World) :
  let n := jsLength text in
  let shown := option_map level (inputWarning (analyzeInput text st)) in
  (3000 < n -> shown = Some severe)
  /\ (2000 < n <= 3000 -> shown = Some warning)
  /\ (1000 < n <= 2000 -> shown = Some info)
  /\ (n <= 1000 -> inputWarning (analyzeInput text st) = None)
  /\ (n = 3500 -> shown = Some severe)
  /\ (selected (analyzeInput text st) = selected st
      /\ input (analyzeInput text st) = input st
      /\ mermaidCode (analyzeInput text st) = mermaidCode st
      /\ loading (analyzeInput text st) = loading st
      /\ error (analyzeInput text st) = error st)
  /\ handleSubmit w (analyzeInput text st) =
     (analyzeInput text (fst (handleSubmit w st)), snd (handleSubmit w st)).
Proof.
  intros n shown.
  assert (shown = if 3000 <? n then Some severe
                  else if 2000 <? n then Some warning
                  else if 1000 <? n then Some info else None) as Hs
      by apply inputWarningFor_level.
  assert (shown = None -> inputWarning (analyzeInput text st) = None) as Hn.
  { unfold shown. now destruct (inputWarning (analyzeInput text st)). }
  destruct (N.ltb_spec 3000 n), (N.ltb_spec 2000 n), (N.ltb_spec 1000 n);
    repeat split; intros; try lia; try exact Hs; try (apply Hn; exact Hs);
    try reflexivity; apply handleSubmit_setInputWarning.
Qed.

Lemma analyzeInput_severity_witness :
  option_map level
    (inputWarning (analyzeInput (repeat 97 3500%nat) samplePage))
  = Some severe.
Proof.
  apply (proj1 (proj2 (proj2 (proj2 (proj2
           (analyzeInput_severity (repeat 97 3500%nat) samplePage
              offlineWorld)))))).
  vm_compute. reflexivity.
Defined.

(* ================================================================= *)
(** ** The fallback generator *)

Section Fallback.

Lemma addNodes_lines phrases : forall flowchart k,
  addNodes flowchart (N.of_nat k) phrases =
  flowchart
  ++ unlines (List.map (fun kp => nodeLine (fst kp) (snd kp))
                (combine (seq k (List.length phrases)) phrases)).
Proof.
  induction phrases as [|p phrases IH]; intros flowchart k.
  - simpl. now rewrite app_nil_r.
  - cbn [addNodes List.length seq combine List.map unlines List.concat fst snd].
    replace (N.of_nat k + 1) with (N.of_nat (S k)) by lia.
    rewrite IH. unfold unlines, nodeLine, nodeId, nodeLabel,
      sanitizeForMermaid, substring0, replaceUnit.
    rewrite firstn_map, <- !app_assoc. reflexivity.
Qed.

Lemma addConnections_lines count : forall flowchart k,
  addConnections flowchart (N.of_nat k) count =
  flowchart ++ unlines (List.map edgeLine (seq k count)).
Proof.
  induction count as [|count IH]; intros flowchart k.
  - simpl. now rewrite app_nil_r.
  - cbn [addConnections seq List.map unlines List.concat].
    replace (N.of_nat k + 1) with (N.of_nat (S k)) by lia.
    rewrite IH. unfold unlines, edgeLine, nodeId.
    replace (65 + N.of_nat k + 1) with (65 + N.of_nat (k + 1)) by lia.
    rewrite <- !app_assoc. reflexivity.
Qed.

(** The document of the generator is the linear chain over its
    phrases, line by line. *)
Lemma generateFallbackFlowchart_chain phrases :
  generateFallbackFlowchart phrases = unlines (linearChain phrases).
Proof.
  unfold generateFallbackFlowchart.
  rewrite (addNodes_lines phrases _ 0), (addConnections_lines _ _ 0).
  unfold linearChain, unlines.
  cbn [List.map List.concat]. rewrite List.map_app, concat_app, <- !app_assoc.
  reflexivity.
Qed.

Lemma headerOk_flowchart rest : headerOk (js "flowchart" ++ rest) = true.
Proof.
  unfold headerOk.
  change (js "flowchart" ++ rest)
    with (102 :: (js "lowchar" ++ 116 :: rest)).
  unfold trim. rewrite trimStart_fixed by reflexivity.
  rewrite trimEnd_cons_keep by reflexivity.
  rewrite trimEnd_app_keep by reflexivity.
  reflexivity.
Qed.

Lemma headerOk_fallback phrases :
  headerOk (generateFallbackFlowchart phrases) = true.
Proof.
  rewrite generateFallbackFlowchart_chain. unfold linearChain, unlines.
  cbn [List.map List.concat]. rewrite <- app_assoc. apply headerOk_flowchart.
Qed.

Lemma headerOk_nonempty d : headerOk d = true -> truthy (JStr d) = true.
Proof.
  unfold headerOk. destruct d as [|c d]; [|reflexivity]. discriminate.
Qed.

End Fallback.

(* ================================================================= *)
(** ** The submission pipeline *)

Section Pipeline.

Variable w : World.

Lemma bind_Ok {A B} (m : M A) (f : A -> M B) log b log' :
  bind m f log = (Ok b, log') ->
  exists a log1, m log = (Ok a, log1) /\ f a log1 = (Ok b, log').
Proof.
  unfold bind. destruct (m log) as [[a | e] log1]; [eauto | discriminate].
Qed.

Lemma catch_rethrow_Ok {A} (m : M A) log a log' :
  catch m (fun e => throw e) log = (Ok a, log') -> m log = (Ok a, log').
Proof.
  unfold catch, throw.
  destruct (m log) as [[x | e] log1]; [tauto | discriminate].
Qed.

(** A successful call of the backend returns an object whose [mermaid]
    field is truthy. *)
Lemma createFlowchartFromBackend_Ok text log r log' :
  createFlowchartFromBackend w text log = (Ok r, log') ->
  exists mermaid, r = JObj [(js "mermaid", mermaid)]
                  /\ truthy mermaid = true.
Proof.
  unfold createFlowchartFromBackend. intros H.
  apply catch_rethrow_Ok, bind_Ok in H as [[] [log1 [_ H]]].
  destruct (backendFetch w text) as [m | ok status body];
    [discriminate|].
  destruct (negb ok); [discriminate|].
  apply bind_Ok in H as [result [log2 [_ H]]].
  apply bind_Ok in H as [data [log3 [_ H]]].
  destruct (truthy data); [|discriminate].
  apply bind_Ok in H as [mermaid [log4 [_ H]]].
  destruct (truthy mermaid) eqn:T; [|discriminate].
  injection H as <- _. now exists mermaid.
Qed.

Lemma checkApiResult_Ok v log r log' :
  checkApiResult v log = (Ok r, log') -> headerOk r = true.
Proof.
  unfold checkApiResult, headerOk.
  destruct (truthy v); [|discriminate].
  destruct v; try discriminate.
  destruct (startsWith (js "flowchart") (trim s) || startsWith GRAPH (trim s))
    eqn:E; [|discriminate].
  unfold ret. intros H. injection H as <- _. exact E.
Qed.

(** [parseFlowchartInput] never throws, and its document passes its
    own header test. *)
Lemma parseFlowchartInput_Ok text log :
  exists d log',
    parseFlowchartInput w text log = (Ok d, log') /\ headerOk d = true.
Proof.
  unfold parseFlowchartInput, catch at 1 2.
  destruct (bind (generateFlowchartFromAPI w text) checkApiResult log)
    as [[d | e] log1] eqn:E.
  - exists d, log1. split; [reflexivity|].
    apply bind_Ok in E as [v [log2 [_ E]]]. eapply checkApiResult_Ok, E.
  - unfold ret. eexists _, _. split; [reflexivity|].
    apply headerOk_fallback.
Qed.

(** The value of [generatedDiagram]: always there, always truthy; it
    is the [mermaid] field of the backend's answer, or a document of
    [parseFlowchartInput]. *)
Lemma generateDiagram_Ok st log :
  exists v log',
    generateDiagram w st log = (Ok v, log') /\ truthy v = true
    /\ ((isFlowchartSelected st = true
         /\ exists log1,
             createFlowchartFromBackend w (input st) log
             = (Ok (JObj [(js "mermaid", v)]), log1))
        \/ exists d, v = JStr d /\ headerOk d = true).
Proof.
  unfold generateDiagram.
  destruct (isFlowchartSelected st).
  - unfold catch, bind at 1.
    destruct (createFlowchartFromBackend w (input st) log)
      as [[r | e] log1] eqn:E.
    + destruct (createFlowchartFromBackend_Ok _ _ E) as [m [-> T]].
      exists m, log1. unfold lift, getProp. cbn [lookupField].
      destruct (list_eq_dec N.eq_dec (js "mermaid") (js "mermaid"));
        [|contradiction].
      split; [reflexivity|]. split; [exact T|]. left. eauto.
    + destruct (parseFlowchartInput_Ok (input st) log1)
        as [d [log2 [P H]]].
      unfold bind, emit, ret. rewrite P.
      eexists _, _. split; [reflexivity|].
      split; [now apply headerOk_nonempty | right; eauto].
  - destruct (parseFlowchartInput_Ok (input st) log) as [d [log2 [P H]]].
    unfold bind, ret. rewrite P.
    eexists _, _. split; [reflexivity|].
    split; [now apply headerOk_nonempty | right; eauto].
Qed.

Lemma truthyStr_trim s :
  truthyStr (trim s) = negb (forallb isWhiteSpace s).
Proof.
  pose proof (trim_blank s) as H. unfold truthyStr, truthy.
  destruct (trim s), (forallb isWhiteSpace s); try reflexivity.
  - destruct H as [H _]. now specialize (H eq_refl).
  - destruct H as [_ H]. now specialize (H eq_refl).
Qed.

(** What a submission of a text that is not blank leaves on the
    page. *)
Lemma handleSubmit_not_blank st :
  forallb isWhiteSpace (input st) = false ->
  exists v log,
    handleSubmit w st
    = (setLoading false
         (setMermaidCode v
            (setMermaidCode (JStr [])
               (setError None (setLoading true st)))), log)
    /\ truthy v = true
    /\ ((isFlowchartSelected st = true
         /\ exists log1,
             createFlowchartFromBackend w (input st) []
             = (Ok (JObj [(js "mermaid", v)]), log1))
        \/ exists d, v = JStr d /\ headerOk d = true).
Proof.
  intros Hb. unfold handleSubmit. rewrite truthyStr_trim, Hb.
  cbn [negb].
  set (st1 := setMermaidCode _ _).
  destruct (generateDiagram_Ok st1 []) as [v [log [G [T O]]]].
  rewrite G, T. exists v, log. split; [reflexivity|].
  split; [exact T | exact O].
Qed.

End Pipeline.

(** C9.  A submission whose text is empty or white space only is
    rejected with the error "Please enter a description": the page is
    otherwise unchanged (no document is set) and no request has been
    made.  Any other submission ends without an error and with a
    document on the page. *)
Theorem handleSubmit_empty_input (w : World) (st : PageState) :
  (forallb isWhiteSpace (input st) = true ->
   handleSubmit w st = (setError (Some PLEASE_ENTER) st, [])
   /\ mermaidCode (fst (handleSubmit w st)) = mermaidCode st)
  /\ (forallb isWhiteSpace (input st) = false ->
      error (fst (handleSubmit w st)) = None
      /\ truthy (mermaidCode (fst (handleSubmit w st))) = true).
Proof.
  split; intros Hb.
  - unfold handleSubmit. rewrite truthyStr_trim, Hb. now cbn [negb].
  - destruct (handleSubmit_not_blank w st Hb) as [v [log [-> [T _]]]].
    split; [reflexivity | exact T].
Qed.

Lemma handleSubmit_empty_input_witness :
  handleSubmit offlineWorld (setInput (js "  ") samplePage)
  = (setError (Some PLEASE_ENTER) (setInput (js "  ") samplePage), [])
  /\ error (fst (handleSubmit offlineWorld samplePage)) = None.
Proof.
  split.
  - apply (proj1 (handleSubmit_empty_input offlineWorld
                    (setInput (js "  ") samplePage))).
    reflexivity.
  - apply (proj2 (handleSubmit_empty_input offlineWorld samplePage)).
    reflexivity.
Defined.

(** C1, as stated, fails: with both services out of reach the text
    [hello] is answered with the fallback generator's document, which
    the validator rejects. *)
Lemma pipeline_document_rejected :
  forallb isWhiteSpace (input samplePage) = false
  /\ mermaidCode (fst (handleSubmit offlineWorld samplePage))
     = JStr (js "flowchart TD" ++ [LF] ++ js "    A[hello]" ++ [LF])
  /\ validateMermaidSyntax
       (mermaidCode (fst (handleSubmit offlineWorld samplePage))) = false.
Proof. vm_compute. repeat split. Qed.

(** *** The requests and the outcome of each stage *)

Lemma createFlowchartFromBackend_log w text log :
  snd (createFlowchartFromBackend w text log) = log ++ [BackendRequest text].
Proof.
  unfold createFlowchartFromBackend, catch, bind, emit, throw, lift, ret.
  destruct (backendFetch w text) as [msg | [|] status [body | e]];
    try reflexivity.
  destruct (getProp body (js "data")) as [data | e]; [|reflexivity].
  destruct (truthy data); [|reflexivity].
  destruct (getProp data (js "mermaid")) as [m | e]; [|reflexivity].
  now destruct (truthy m).
Qed.

Lemma generateFlowchartFromAPI_log w prompt log :
  snd (generateFlowchartFromAPI w prompt log) = log ++ [ApiRequest prompt].
Proof.
  unfold generateFlowchartFromAPI, catch, bind, emit, throw, lift, ret.
  destruct (apiFetch w prompt) as [msg | ok status [body | e]];
    try reflexivity.
  destruct (getProp body (js "flowchart")) as [field | e]; [|reflexivity].
  destruct (isString (if truthy field then field else JStr []));
    [|reflexivity].
  destruct ok; [|reflexivity]. now destruct (truthy field).
Qed.

Lemma generateFlowchartFromAPI_string w prompt log r :
  fst (generateFlowchartFromAPI w prompt log) = Ok r ->
  exists c s, r = JStr (c :: s).
Proof.
  unfold generateFlowchartFromAPI, catch, bind, emit, throw, lift, ret.
  destruct (apiFetch w prompt) as [msg | ok status [body | e]];
    try discriminate.
  destruct (getProp body (js "flowchart")) as [field | e]; [|discriminate].
  destruct (truthy field) eqn:T.
  - destruct field as [| | | | [|c s] |]; try discriminate.
    destruct ok; [|discriminate]. cbn. intros H. injection H as <-. eauto.
  - cbn. now destruct ok.
Qed.

Lemma checkApiResult_log v log : snd (checkApiResult v log) = log.
Proof.
  unfold checkApiResult, ret, throw.
  destruct (truthy v); [|reflexivity].
  destruct v; try reflexivity.
  now destruct (startsWith (js "flowchart") (trim s)
                || startsWith GRAPH (trim s)).
Qed.

Lemma handleSubmit_unfold w st :
  forallb isWhiteSpace (input st) = false ->
  handleSubmit w st =
  let st1 := setMermaidCode (JStr []) (setError None (setLoading true st)) in
  (setLoading false
     (match fst (generateDiagram w st1 []) with
      | Ok generatedDiagram =>
          setMermaidCode
            (if truthy generatedDiagram then generatedDiagram
             else JStr (submitFallbackDiagram st1)) st1
      | Throw message =>
          setMermaidCode (JStr (submitFallbackDiagram st1))
            (setError (Some (js "Failed to generate diagram: " ++ message))
               st1)
      end),
   snd (generateDiagram w st1 [])).
Proof.
  intros Hb. unfold handleSubmit. rewrite truthyStr_trim, Hb. cbn [negb].
  cbv zeta.
  destruct (generateDiagram w _ []) as [[v | e] log]; reflexivity.
Qed.

(** What [parseFlowchartInput] returns: the answer of the API when it is
    a string that passes the header test, else the fallback chart. *)
Lemma parseFlowchartInput_cases w text log :
  exists d,
    parseFlowchartInput w text log = (Ok d, log ++ [ApiRequest text])
    /\ ((exists r, fst (generateFlowchartFromAPI w text log) = Ok (JStr r)
                   /\ headerOk r = true /\ d = r)
        \/ ((forall r, fst (generateFlowchartFromAPI w text log) = Ok (JStr r)
                       -> headerOk r = false)
            /\ d = generateFallbackFlowchart (extractPhrases text))).
Proof.
  pose proof (generateFlowchartFromAPI_log w text log) as L.
  pose proof (generateFlowchartFromAPI_string w text log) as S.
  unfold parseFlowchartInput, catch, bind, ret.
  destruct (generateFlowchartFromAPI w text log) as [[v | e] log1];
    cbn [fst snd] in *; subst log1.
  - destruct (S v eq_refl) as [c [s ->]].
    unfold checkApiResult. cbn [truthy]. fold (headerOk (c :: s)).
    destruct (headerOk (c :: s)) eqn:Hh.
    + eexists. split; [reflexivity|]. left. eauto.
    + eexists. split; [reflexivity|]. right. split; [|reflexivity].
      intros r H. injection H as <-. exact Hh.
  - eexists. split; [reflexivity|]. right. split; [|reflexivity].
    intros r H. discriminate.
Qed.

(** The document of a submission in terms of the two clients and of
    [parseFlowchartInput]. *)
Lemma handleSubmit_document (w : World) (st : PageState) :
  forallb isWhiteSpace (input st) = false ->
  let st' := fst (handleSubmit w st) in
  let backend := createFlowchartFromBackend w (input st) [] in
  let log := if isFlowchartSelected st then snd backend else [] in
  error st' = None /\ loading st' = false
  /\ truthy (mermaidCode st') = true
  /\ (isFlowchartSelected st = true ->
      forall r, fst backend = Ok r ->
                r = JObj [(js "mermaid", mermaidCode st')])
  /\ (isFlowchartSelected st = false \/ (exists e, fst backend = Throw e) ->
      exists d,
        fst (parseFlowchartInput w (input st) log) = Ok d
        /\ mermaidCode st' = JStr d
        /\ headerOk d = true
        /\ ((exists r,
                fst (generateFlowchartFromAPI w (input st) log) = Ok (JStr r)
                /\ headerOk r = true /\ d = r)
            \/ ((forall r,
                    fst (generateFlowchartFromAPI w (input st) log)
                    = Ok (JStr r) -> headerOk r = false)
                /\ d = generateFallbackFlowchart
                         (extractPhrases (input st))))).
Proof.
  intros Hb. rewrite (handleSubmit_unfold w st Hb). cbv zeta. cbn [fst].
  set (st1 := setMermaidCode _ _).
  assert (isFlowchartSelected st1 = isFlowchartSelected st) as Hsel
      by reflexivity.
  change (input st) with (input st1).
  assert (forall d log,
             parseFlowchartInput w (input st1) log
             = (Ok d, log ++ [ApiRequest (input st1)]) ->
             (exists r,
                 fst (generateFlowchartFromAPI w (input st1) log)
                 = Ok (JStr r) /\ headerOk r = true /\ d = r)
             \/ ((forall r,
                     fst (generateFlowchartFromAPI w (input st1) log)
                     = Ok (JStr r) -> headerOk r = false)
                 /\ d = generateFallbackFlowchart
                          (extractPhrases (input st1))) ->
             headerOk d = true) as Hheader.
  { intros d log _ [[r [_ [H ->]]] | [_ ->]];
      [exact H | apply headerOk_fallback]. }
  unfold generateDiagram. rewrite Hsel.
  destruct (isFlowchartSelected st) eqn:Hf.
  - unfold catch, bind, lift, emit, ret.
    destruct (createFlowchartFromBackend w (input st1) [])
      as [[r | e] log1] eqn:B; cbn [fst snd].
    + destruct (createFlowchartFromBackend_Ok w _ _ B) as [m [-> Tm]].
      unfold getProp. cbn [lookupField].
      destruct (list_eq_dec N.eq_dec (js "mermaid") (js "mermaid"));
        [|contradiction].
      cbn [fst]. rewrite Tm.
      cbn [error loading mermaidCode setLoading setMermaidCode setError].
      split; [reflexivity|]. split; [reflexivity|]. split; [exact Tm|].
      split.
      * intros _ r H. now injection H as <-.
      * intros [H | [msg H]]; discriminate.
    + destruct (parseFlowchartInput_cases w (input st1) log1)
        as [d [P C]].
      pose proof (Hheader d log1 P C) as Hh.
      rewrite P. cbn [fst].
      rewrite (headerOk_nonempty d Hh).
      cbn [error loading mermaidCode setLoading setMermaidCode setError].
      split; [reflexivity|]. split; [reflexivity|].
      split; [exact (headerOk_nonempty d Hh)|].
      split.
      * intros _ r H. discriminate.
      * intros _. exists d. auto.
  - unfold bind, ret.
    destruct (parseFlowchartInput_cases w (input st1) []) as [d [P C]].
    pose proof (Hheader d [] P C) as Hh.
    rewrite P. cbn [fst snd].
    rewrite (headerOk_nonempty d Hh).
    cbn [error loading mermaidCode setLoading setMermaidCode setError].
    split; [reflexivity|]. split; [reflexivity|].
    split; [exact (headerOk_nonempty d Hh)|].
    split.
    + intros H. discriminate.
    + intros _. exists d. auto.
Qed.

Lemma getProp_truthy_field v name m :
  getProp v name = Ok m -> truthy m = true -> truthy v = true.
Proof.
  destruct v; simpl; intros H T; try reflexivity; try discriminate;
    injection H as <-; discriminate.
Qed.

(** The backend client returns exactly when the backend answers. *)
Lemma createFlowchartFromBackend_iff (w : World) (text : jsstring)
    (log : list Event) (r : jsval) :
  snd (createFlowchartFromBackend w text log) = log ++ [BackendRequest text]
  /\ (fst (createFlowchartFromBackend w text log) = Ok r <->
      exists status body data m,
        backendFetch w text = Response true status (Ok body)
        /\ getProp body (js "data") = Ok data
        /\ getProp data (js "mermaid") = Ok m
        /\ truthy m = true
        /\ r = JObj [(js "mermaid", m)]).
Proof.
  unfold createFlowchartFromBackend, catch, bind, emit, throw, lift, ret.
  destruct (backendFetch w text) as [msg | ok status body] eqn:F.
  { split; [reflexivity|]. split; [discriminate|].
    intros (? & ? & ? & ? & H & _). discriminate. }
  destruct ok; cbn [negb].
  2:{ split; [reflexivity|]. split; [discriminate|].
      intros (? & ? & ? & ? & H & _). discriminate. }
  destruct body as [body | e].
  2:{ split; [reflexivity|]. split; [discriminate|].
      intros (? & ? & ? & ? & H & _). discriminate. }
  destruct (getProp body (js "data")) as [data | e] eqn:D.
  2:{ split; [reflexivity|]. split; [discriminate|].
      intros (? & ? & ? & ? & H & H' & _). injection H as _ <-.
      rewrite D in H'. discriminate. }
  destruct (truthy data) eqn:TD.
  2:{ split; [reflexivity|]. split; [discriminate|].
      intros (? & ? & d & m & H & H1 & H2 & H3 & _). injection H as _ <-.
      rewrite D in H1. injection H1 as <-.
      rewrite (getProp_truthy_field _ _ H2 H3) in TD. discriminate. }
  destruct (getProp data (js "mermaid")) as [m | e] eqn:G.
  2:{ split; [reflexivity|]. split; [discriminate|].
      intros (? & ? & d & m & H & H1 & H2 & _). injection H as _ <-.
      rewrite D in H1. injection H1 as <-. rewrite G in H2. discriminate. }
  destruct (truthy m) eqn:TM.
  2:{ split; [reflexivity|]. split; [discriminate|].
      intros (? & ? & d & m' & H & H1 & H2 & H3 & _). injection H as _ <-.
      rewrite D in H1. injection H1 as <-. rewrite G in H2.
      injection H2 as <-. rewrite TM in H3. discriminate. }
  split; [reflexivity|]. cbn [fst]. split.
  - intros H. injection H as <-. exists status, body, data, m. auto.
  - intros (? & ? & d & m' & H & H1 & H2 & _ & ->). injection H as _ <-.
    rewrite D in H1. injection H1 as <-. rewrite G in H2.
    now injection H2 as <-.
Qed.

(** The API client returns exactly when the API answers with a
    non-empty string. *)
Lemma generateFlowchartFromAPI_iff (w : World) (prompt : jsstring)
    (log : list Event) (r : jsval) :
  snd (generateFlowchartFromAPI w prompt log) = log ++ [ApiRequest prompt]
  /\ (fst (generateFlowchartFromAPI w prompt log) = Ok r <->
      exists status body c s,
        apiFetch w prompt = Response true status (Ok body)
        /\ getProp body (js "flowchart") = Ok (JStr (c :: s))
        /\ r = JStr (c :: s)).
Proof.
  unfold generateFlowchartFromAPI, catch, bind, emit, throw, lift, ret.
  destruct (apiFetch w prompt) as [msg | ok status [body | e]] eqn:F;
    [| destruct (getProp body (js "flowchart"))
         as [[| | [|] | z | [|c s] | fields] | e] eqn:G;
       try destruct (truthy (JNum z)) eqn:TZ; destruct ok |];
    cbn [truthy isString negb fst snd];
    (split; [reflexivity|]);
    (split;
     [intros H; try discriminate H
     |intros (? & ? & c' & s' & H & H' & E); try discriminate H;
      injection H as ? ?; subst; rewrite G in H'; try discriminate H']).
  - injection H as <-. exists status, body, c, s. auto.
  - now injection H' as <- <-.
Qed.

(** C1, amended.  For every text that is not blank and whatever the two
    services answer, the submission ends without an error and leaves a
    non-empty document on the page.  When the flowchart type is selected
    and the backend answers, the document is the [mermaid] value of its
    answer.  Otherwise, that is for another type or when the backend
    does not answer, the document is the string returned by
    [parseFlowchartInput], whose trimmed text starts with [flowchart] or
    [graph]: the string the API answers when that passes this test, and
    the chart of the fallback generator over the first clauses of the
    text when the API has no such answer.  The validator is not part of
    the pipeline. *)
Theorem handleSubmit_returns_document (w : World) (st : PageState) :
  forallb isWhiteSpace (input st) = false ->
  let st' := fst (handleSubmit w st) in
  error st' = None /\ loading st' = false
  /\ truthy (mermaidCode st') = true
  /\ (isFlowchartSelected st = true ->
      forall m, backendAnswers w (input st) m -> mermaidCode st' = m)
  /\ (isFlowchartSelected st = false
      \/ (forall m, ~ backendAnswers w (input st) m) ->
      (exists d log,
          fst (parseFlowchartInput w (input st) log) = Ok d
          /\ mermaidCode st' = JStr d /\ headerOk d = true)
      /\ (forall r, apiAnswers w (input st) r -> headerOk r = true ->
                    mermaidCode st' = JStr r)
      /\ ((forall r, apiAnswers w (input st) r -> headerOk r = false) ->
          mermaidCode st'
          = JStr (generateFallbackFlowchart (extractPhrases (input st))))).
Proof.
  intros Hb st'.
  destruct (handleSubmit_document w st Hb) as (He & Hl & Ht & Hback & Hparse).
  fold st' in He, Hl, Ht, Hback, Hparse.
  split; [exact He|]. split; [exact Hl|]. split; [exact Ht|]. split.
  - intros Hf m (status & body & data & F & D & G & T).
    assert (fst (createFlowchartFromBackend w (input st) [])
            = Ok (JObj [(js "mermaid", m)])) as B.
    { apply (createFlowchartFromBackend_iff w (input st) []).
      exists status, body, data, m. auto. }
    specialize (Hback Hf _ B). now injection Hback as <-.
  - intros Hno.
    assert (isFlowchartSelected st = false
            \/ exists e, fst (createFlowchartFromBackend w (input st) [])
                         = Throw e) as Hcase.
    { destruct Hno as [Hno | Hno]; [now left|]. right.
      destruct (fst (createFlowchartFromBackend w (input st) []))
        as [r | e] eqn:B; [|eauto].
      apply (createFlowchartFromBackend_iff w (input st) []) in B
        as (status & body & data & m & F & D & G & T & _).
      destruct (Hno m). exists status, body, data. auto. }
    destruct (Hparse Hcase) as (d & P & E & Hh & C).
    set (log := if isFlowchartSelected st
                then snd (createFlowchartFromBackend w (input st) [])
                else []) in *.
    split; [exists d, log; auto|]. split.
    + intros r (status & body & F & G & Hne) Hr.
      assert (fst (generateFlowchartFromAPI w (input st) log)
              = Ok (JStr r)) as Eapi.
      { apply (generateFlowchartFromAPI_iff w (input st) log).
        destruct r as [|c r]; [contradiction|].
        exists status, body, c, r. auto. }
      destruct C as [(r0 & E0 & _ & ->) | [Hnone _]].
      * rewrite Eapi in E0. injection E0 as <-. exact E.
      * rewrite (Hnone r Eapi) in Hr. discriminate.
    + intros Hnone. destruct C as [(r0 & E0 & Hr0 & ->) | [_ ->]];
        [|exact E].
      apply (generateFlowchartFromAPI_iff w (input st) log) in E0
        as (status & body & c & s0 & F & G & Er).
      injection Er as ->.
      assert (apiAnswers w (input st) (c :: s0)) as Ha
          by (exists status, body; repeat split; auto; discriminate).
      rewrite (Hnone _ Ha) in Hr0. discriminate.
Qed.

Lemma handleSubmit_returns_document_witness :
  mermaidCode (fst (handleSubmit offlineWorld samplePage))
  = JStr (generateFallbackFlowchart (extractPhrases (js "hello"))).
Proof.
  destruct (handleSubmit_returns_document offlineWorld samplePage eq_refl)
    as (_ & _ & _ & _ & H).
  destruct H as (_ & _ & H).
  - right. intros m (status & body & data & F & _). discriminate F.
  - apply H. intros r (status & body & F & _). discriminate F.
Defined.

(* ================================================================= *)
(** ** Splitting and joining *)

Section SplitFacts.

Variable sep : N -> bool.

Lemma splitOn_cons s : exists l ls, splitOn sep s = l :: ls.
Proof.
  destruct s as [|c s]; simpl; [eauto|].
  destruct (sep c); [eauto|]. destruct (splitOn sep s); eauto.
Qed.

Lemma splitOn_sepFree s : Forall (sepFree sep) (splitOn sep s).
Proof.
  induction s as [|c s IH]; simpl.
  - constructor; [intros c []|constructor].
  - destruct (sep c) eqn:E.
    + constructor; [intros x []|exact IH].
    + destruct (splitOn sep s) as [|l ls].
      * constructor; [|constructor]. intros x [<- | []]. exact E.
      * inversion IH as [|? ? Hl Hls]; subst. constructor; [|exact Hls].
        intros x [<- | Hx]; [exact E | now apply Hl].
Qed.

(** The fragments, in order, hold the code units that are not
    separators, in their original order. *)
Lemma concat_splitOn s :
  List.concat (splitOn sep s) = filter (fun c => negb (sep c)) s.
Proof.
  induction s as [|c s IH]; simpl; [reflexivity|].
  destruct (sep c); simpl; [exact IH|].
  destruct (splitOn_cons s) as [l [ls E]]. rewrite E in *. simpl.
  simpl in IH. now rewrite IH.
Qed.

Lemma splitOn_app_sepFree a s :
  sepFree sep a ->
  splitOn sep (a ++ s) =
  match splitOn sep s with
  | l :: ls => (a ++ l) :: ls
  | [] => [a]
  end.
Proof.
  intros Ha. destruct (splitOn_cons s) as [l [ls E]].
  induction a as [|c a IH]; simpl.
  - now rewrite E.
  - rewrite (Ha c) by now left. rewrite IH.
    + now rewrite E.
    + intros x Hx. apply Ha. now right.
Qed.

Lemma splitOn_app_sep a c s :
  sepFree sep a -> sep c = true ->
  splitOn sep (a ++ c :: s) = a :: splitOn sep s.
Proof.
  intros Ha Hc. rewrite splitOn_app_sepFree by exact Ha.
  simpl. rewrite Hc. now rewrite app_nil_r.
Qed.

Lemma splitOn_single a : sepFree sep a -> splitOn sep a = [a].
Proof.
  intros Ha. rewrite <- (app_nil_r a) at 1.
  rewrite splitOn_app_sepFree by exact Ha. simpl. now rewrite app_nil_r.
Qed.

(** Splitting undoes joining when no part contains the separator. *)
Lemma splitOn_join c parts :
  sep c = true -> parts <> [] -> Forall (sepFree sep) parts ->
  splitOn sep (join [c] parts) = parts.
Proof.
  intros Hc. induction parts as [|p parts IH]; intros Hne Hall;
    [contradiction|].
  inversion Hall as [|? ? Hp Hps]; subst.
  destruct parts as [|q parts].
  - simpl. now apply splitOn_single.
  - change (join [c] (p :: q :: parts))
      with (p ++ c :: join [c] (q :: parts)).
    rewrite splitOn_app_sep by assumption.
    rewrite IH; [reflexivity | discriminate | exact Hps].
Qed.

End SplitFacts.

(** C8.  The chain is not always linear.  The text below has none of
    the separators, so it is a single clause; [sanitizeForMermaid] leaves
    its line feeds, brackets and braces, and the generator writes it
    between the brackets of node A as it is.  The document that a
    submission of this text puts on the page, with both services out of
    reach, declares an edge from A to A and a decision node Q after the
    node A. *)
Theorem fallback_chain_injection :
  extractPhrases injectedText = [injectedText]
  /\ sanitizeForMermaid injectedText = injectedText
  /\ generateFallbackFlowchart (extractPhrases injectedText)
     = unlines [js "flowchart TD"; js "    A[go]"; js "A --> A";
                js "Q{ok}"; js "R[x]"]
  /\ splitOn isNewline (generateFallbackFlowchart (extractPhrases injectedText))
     = [js "flowchart TD"; js "    A[go]"; js "A --> A"; js "Q{ok}";
        js "R[x]"; []]
  /\ mermaidCode
       (fst (handleSubmit offlineWorld (setInput injectedText samplePage)))
     = JStr (generateFallbackFlowchart (extractPhrases injectedText)).
Proof. repeat (split; [vm_compute; reflexivity|]). vm_compute. reflexivity. Qed.

(* ================================================================= *)
(** ** The cleaner *)

Section Cleaner.

Lemma cleanStep_accepts acc line :
  cleanStep acc line =
  if accepts acc (cleanLine line) then acc ++ [cleanLine line] else acc.
Proof. reflexivity. Qed.

Lemma accepts_nil c : accepts [] c = truthyStr c.
Proof. unfold accepts. cbn [List.length Nat.eqb andb]. apply orb_false_r. Qed.

(** Once a line has been kept, it stays the first one. *)
Lemma fold_cleanStep_head lines : forall a acc,
  exists t, fold_left cleanStep lines (a :: acc) = a :: t.
Proof.
  induction lines as [|l lines IH]; intros a acc; cbn [fold_left].
  - eauto.
  - rewrite cleanStep_accepts.
    destruct (accepts (a :: acc) (cleanLine l)); apply IH.
Qed.

(** The first kept line is the first content line. *)
Lemma fold_cleanStep_first lines :
  match filter truthyStr (List.map cleanLine lines) with
  | [] => fold_left cleanStep lines [] = []
  | c :: _ => exists t, fold_left cleanStep lines [] = c :: t
  end.
Proof.
  induction lines as [|l lines IH]; cbn [fold_left List.map filter].
  - reflexivity.
  - rewrite cleanStep_accepts, accepts_nil.
    destruct (truthyStr (cleanLine l)); [|exact IH].
    apply fold_cleanStep_head.
Qed.

Lemma cleanedLinesOf_first code :
  match contentLines code with
  | [] => cleanedLinesOf code = []
  | c :: _ => exists t, cleanedLinesOf code = c :: t
  end.
Proof. apply fold_cleanStep_first. Qed.

(** When the minimal diagram is substituted. *)
Lemma cleanMermaidCode_substitutes c code :
  contentLines (c :: code) = []
  \/ startsWith GRAPH (hd [] (contentLines (c :: code))) = false ->
  cleanMermaidCode (JStr (c :: code)) = JStr minimalDiagram.
Proof.
  intros H. unfold cleanMermaidCode. cbn [truthy isString negb orb].
  pose proof (cleanedLinesOf_first (c :: code)) as F.
  destruct (contentLines (c :: code)) as [|h t].
  - now rewrite F.
  - destruct H as [H | H]; [discriminate|].
    destruct F as [t' ->]. cbn [List.length Nat.eqb nth orb].
    cbn [hd] in H. now rewrite H.
Qed.

End Cleaner.

(** C3, as stated, fails on the empty string: it has no content line,
    and the cleaner answers [null], not the minimal diagram. *)
Lemma cleanMermaidCode_empty_string :
  contentLines [] = []
  /\ cleanMermaidCode (JStr []) = JNull
  /\ cleanMermaidCode (JStr []) <> JStr minimalDiagram.
Proof. repeat split. discriminate. Qed.

(** C3, amended.  For every non-empty string, if the cleaned document
    has no content line or its first content line does not start with
    [graph], the cleaner returns the fixed minimal diagram
    (Start, Process, End and a default [classDef]); the validator
    accepts that diagram. *)
Theorem cleanMermaidCode_minimal_diagram (code : jsstring) :
  code <> [] ->
  contentLines code = []
  \/ startsWith GRAPH (hd [] (contentLines code)) = false ->
  cleanMermaidCode (JStr code) = JStr minimalDiagram
  /\ validateMermaidSyntax (JStr minimalDiagram) = true.
Proof.
  intros Hne H. destruct code as [|c code]; [contradiction|].
  split; [now apply cleanMermaidCode_substitutes | reflexivity].
Qed.

Lemma cleanMermaidCode_minimal_diagram_witness :
  cleanMermaidCode (JStr (js "A[Start] --> B[End]")) = JStr minimalDiagram
  /\ validateMermaidSyntax (JStr minimalDiagram) = true.
Proof.
  apply (cleanMermaidCode_minimal_diagram (code := js "A[Start] --> B[End]")).
  - discriminate.
  - right. reflexivity.
Defined.

Section CleanerTwice.

Lemma filter_fixed {A} (f : A -> bool) l :
  (forall x, In x l -> f x = true) -> filter f l = l.
Proof.
  induction l as [|a l IH]; intros H; simpl; [reflexivity|].
  rewrite (H a) by now left. rewrite IH; [reflexivity|].
  intros x Hx. apply H. now right.
Qed.

(** A cleaned line is not changed by cleaning, and has no line feed if
    the line had none. *)
Lemma cleanLine_fixed line :
  cleanLine (cleanLine line) = cleanLine line.
Proof.
  unfold cleanLine at 1.
  assert (stripGlyphs (cleanLine line) = cleanLine line) as ->.
  { apply filter_fixed. intros x Hx. unfold cleanLine in Hx.
    apply In_trim in Hx. unfold stripGlyphs in Hx.
    now apply filter_In in Hx. }
  apply trim_idem.
Qed.

Lemma cleanLine_sepFree line :
  sepFree isNewline line -> sepFree isNewline (cleanLine line).
Proof.
  intros H x Hx. apply H. unfold cleanLine in Hx.
  apply In_trim in Hx. unfold stripGlyphs in Hx.
  now apply filter_In in Hx.
Qed.

(** Lines that are stable are reproduced by the loop. *)
Lemma fold_cleanStep_stable rest : forall acc,
  stableFrom acc rest -> fold_left cleanStep rest acc = acc ++ rest.
Proof.
  induction rest as [|r rest IH]; intros acc H; cbn [fold_left].
  - now rewrite app_nil_r.
  - destruct H as [Hc [_ [Ha Hs]]].
    rewrite cleanStep_accepts, Hc, Ha, IH by exact Hs.
    now rewrite <- app_assoc.
Qed.

Lemma stableFrom_snoc rest : forall acc c,
  stableFrom acc rest -> cleanLine c = c -> sepFree isNewline c ->
  accepts (acc ++ rest) c = true -> stableFrom acc (rest ++ [c]).
Proof.
  induction rest as [|r rest IH]; intros acc c H Hc Hf Ha.
  - rewrite app_nil_r in Ha. cbn. auto.
  - destruct H as [Hr [Hrf [Hra Hs]]]. cbn. repeat split; try assumption.
    apply IH; try assumption. now rewrite <- app_assoc.
Qed.

Lemma stableFrom_sepFree rest : forall acc,
  stableFrom acc rest -> Forall (sepFree isNewline) rest.
Proof.
  induction rest as [|r rest IH]; intros acc H; constructor.
  - apply H.
  - apply (IH (acc ++ [r])), H.
Qed.

(** The loop only ever builds stable lines. *)
Lemma fold_cleanStep_builds lines : forall acc,
  Forall (sepFree isNewline) lines -> stableFrom [] acc ->
  stableFrom [] (fold_left cleanStep lines acc).
Proof.
  induction lines as [|l lines IH]; intros acc Hl Hacc; cbn [fold_left].
  - exact Hacc.
  - inversion Hl as [|? ? Hf Hls]; subst. apply IH; [exact Hls|].
    rewrite cleanStep_accepts.
    destruct (accepts acc (cleanLine l)) eqn:E; [|exact Hacc].
    apply stableFrom_snoc; try assumption.
    + apply cleanLine_fixed.
    + now apply cleanLine_sepFree.
Qed.

Lemma cleanedLinesOf_stable code : stableFrom [] (cleanedLinesOf code).
Proof.
  apply fold_cleanStep_builds; [|exact I].
  apply (splitOn_sepFree isNewline).
Qed.

(** Cleaning the joined lines gives the same lines again. *)
Lemma cleanedLinesOf_join code :
  cleanedLinesOf code <> [] ->
  cleanedLinesOf (join [LF] (cleanedLinesOf code)) = cleanedLinesOf code.
Proof.
  intros Hne. pose proof (cleanedLinesOf_stable code) as Hs.
  unfold cleanedLinesOf at 1.
  rewrite splitOn_join;
    [| reflexivity | exact Hne | now apply stableFrom_sepFree with []].
  now rewrite fold_cleanStep_stable.
Qed.

Lemma join_truthy h t :
  h <> [] -> truthy (JStr (join [LF] (h :: t))) = true.
Proof.
  intros H. destruct h as [|c h]; [contradiction|].
  destruct t; reflexivity.
Qed.

(** The result of the cleaner, case by case; [minimalDiagram] is only
    ever the result of a substitution. *)
Lemma cleanMermaidCode_cases v :
  cleanMermaidCode v = JNull
  \/ cleanMermaidCode v = JStr minimalDiagram
  \/ exists code h t,
       v = JStr code /\ cleanedLinesOf code = h :: t
       /\ startsWith GRAPH h = true
       /\ cleanMermaidCode v = JStr (join [LF] (h :: t)).
Proof.
  unfold cleanMermaidCode.
  destruct (negb (truthy v) || negb (isString v)); [now left|].
  destruct v as [| | | | code |]; try now left.
  destruct (cleanedLinesOf code) as [|h t] eqn:E; [right; now left|].
  cbn [List.length Nat.eqb nth orb].
  destruct (startsWith GRAPH h) eqn:G; [|right; now left].
  right; right. exists code, h, t. auto.
Qed.

Lemma cleanMermaidCode_joined code h t :
  cleanedLinesOf code = h :: t -> startsWith GRAPH h = true ->
  cleanMermaidCode (JStr (join [LF] (h :: t))) = JStr (join [LF] (h :: t)).
Proof.
  intros E G. unfold cleanMermaidCode.
  rewrite join_truthy by (intros ->; discriminate).
  cbn [isString negb orb]. rewrite <- E, cleanedLinesOf_join, E.
  - cbn [List.length Nat.eqb nth orb]. now rewrite G.
  - rewrite E. discriminate.
Qed.

End CleanerTwice.

(** C4, as stated, fails: on [hello] the cleaner substitutes the minimal
    diagram, whose lines are indented; cleaning that diagram trims its
    lines. *)
Lemma cleanMermaidCode_not_idempotent :
  cleanMermaidCode (cleanMermaidCode (JStr (js "hello")))
  <> cleanMermaidCode (JStr (js "hello")).
Proof. vm_compute. discriminate. Qed.

(** C4, amended.  Cleaning twice gives the same as cleaning once for
    every value on which the cleaner does not substitute the minimal
    diagram; for every value, a third cleaning changes nothing any
    more. *)
Theorem cleanMermaidCode_idempotent_unless_substituted (v : jsval) :
  (cleanMermaidCode v <> JStr minimalDiagram ->
   cleanMermaidCode (cleanMermaidCode v) = cleanMermaidCode v)
  /\ cleanMermaidCode (cleanMermaidCode (cleanMermaidCode v))
     = cleanMermaidCode (cleanMermaidCode v).
Proof.
  destruct (cleanMermaidCode_cases v)
    as [E | [E | [code [h [t [-> [L [G E]]]]]]]].
  - rewrite E. split; reflexivity.
  - rewrite E. split; [contradiction | reflexivity].
  - rewrite E. rewrite !(cleanMermaidCode_joined _ L G). split; reflexivity.
Qed.

Lemma cleanMermaidCode_idempotent_unless_substituted_witness :
  cleanMermaidCode
    (cleanMermaidCode (JStr (js "graph TD" ++ [LF; LF; LF] ++ js "  A --> B ")))
  = cleanMermaidCode (JStr (js "graph TD" ++ [LF; LF; LF] ++ js "  A --> B ")).
Proof.
  apply (proj1 (cleanMermaidCode_idempotent_unless_substituted
                  (JStr (js "graph TD" ++ [LF; LF; LF] ++ js "  A --> B ")))).
  vm_compute. discriminate.
Defined.

(* ================================================================= *)
(** ** The fallback document before the validator *)

Section FallbackValidation.

Lemma sepFree_forallb sep l :
  forallb (fun c => negb (sep c)) l = true -> sepFree sep l.
Proof.
  intros H c Hc. rewrite forallb_forall in H.
  apply H in Hc. now destruct (sep c).
Qed.

(** The declaration of the first node is a line with node syntax. *)
Lemma hasNodesIn_fallback p phrases :
  hasNodesIn (generateFallbackFlowchart (p :: phrases)) = true.
Proof.
  rewrite generateFallbackFlowchart_chain, hasNodesIn_existsb.
  unfold linearChain, unlines.
  cbn [List.length seq combine List.map List.concat fst snd].
  rewrite <- app_assoc.
  change ([LF] ++ ?x) with (LF :: x).
  rewrite splitOn_app_sep;
    [| now apply sepFree_forallb | reflexivity].
  unfold nodeLine at 1. cbn [app List.map List.concat].
  rewrite <- !app_assoc.
  change (js "    " ++ nodeId 0 ++ js "[" ++ ?x)
    with (js "    A[" ++ x).
  rewrite splitOn_app_sepFree by now apply sepFree_forallb.
  match goal with
  | |- context [splitOn isNewline ?x] =>
      destruct (splitOn_cons isNewline x) as [l [ls ->]]
  end.
  cbn [existsb]. apply orb_true_iff. right. apply orb_true_iff. left.
  unfold lineCounts.
  change (js "    A[" ++ l) with (js "    " ++ 65 :: (91 :: l)).
  rewrite trim_padded by reflexivity.
  rewrite trimEnd_cons_keep by reflexivity.
  reflexivity.
Qed.

Lemma hasNodesIn_fallback_nil :
  hasNodesIn (generateFallbackFlowchart []) = false.
Proof. reflexivity. Qed.

End FallbackValidation.

Section ContainsFacts.

Lemma Contains_length t s :
  Contains t s -> (List.length t <= List.length s)%nat.
Proof. intros [a [b ->]]. rewrite !length_app. lia. Qed.

Lemma Contains_trans t u s : Contains t u -> Contains u s -> Contains t s.
Proof.
  intros [a [b ->]] [a' [b' ->]]. exists (a' ++ a), (b ++ b').
  now rewrite <- !app_assoc.
Qed.

Lemma Contains_app_left t a b : Contains t a -> Contains t (a ++ b).
Proof.
  intros [x [y ->]]. exists x, (y ++ b). now rewrite <- !app_assoc.
Qed.

Lemma Contains_app_right t a b : Contains t b -> Contains t (a ++ b).
Proof.
  intros [x [y ->]]. exists (a ++ x), y. now rewrite <- !app_assoc.
Qed.

(** An occurrence of [t] cannot straddle a code unit that [t] does not
    contain. *)
Lemma Contains_split_at t a c b :
  ~ In c t -> Contains t (a ++ c :: b) -> Contains t a \/ Contains t b.
Proof.
  intros Hc [before [after H]].
  symmetry in H. apply app_eq_app in H as [l [[E1 E2] | [E1 E2]]].
  - (* the occurrence starts at or after [c] *)
    destruct l as [|x l].
    + destruct t as [|y t].
      * left. exists a, []. now rewrite app_nil_r.
      * simpl in E2. injection E2 as -> _. destruct Hc. now left.
    + injection E2 as _ ->. right. now exists l, after.
  - (* the occurrence starts before [c] *)
    symmetry in E2. apply app_eq_app in E2 as [m [[F1 F2] | [F1 F2]]].
    + subst l. left. exists before, m. now rewrite E1.
    + destruct m as [|x m].
      * rewrite app_nil_r in F1. subst l. left. exists before, [].
        now rewrite E1, app_nil_r.
      * injection F2 as -> _. destruct Hc. rewrite F1.
        apply in_or_app. right. now left.
Qed.

Lemma In_Contains_unlines l lines :
  In l lines -> Contains l (unlines lines).
Proof.
  intros H. apply in_split in H as [l1 [l2 ->]]. unfold unlines.
  rewrite List.map_app, concat_app. cbn [List.map List.concat].
  exists (List.concat (List.map (fun l => l ++ [LF]) l1)),
    ([LF] ++ List.concat (List.map (fun l => l ++ [LF]) l2)).
  now rewrite <- !app_assoc.
Qed.

Lemma In_combine_seq {A} (x : A) l : forall i,
  In x l -> exists k, In (k, x) (combine (seq i (List.length l)) l).
Proof.
  induction l as [|a l IH]; intros i H; [contradiction|].
  destruct H as [-> | H].
  - exists i. now left.
  - destruct (IH (S i) H) as [k Hk]. exists k. now right.
Qed.

(** Every label occurs in the document. *)
Lemma label_in_fallback p phrases :
  In p phrases ->
  Contains (nodeLabel p) (generateFallbackFlowchart phrases).
Proof.
  intros H. rewrite generateFallbackFlowchart_chain.
  destruct (In_combine_seq p phrases 0 H) as [k Hk].
  apply Contains_trans with (nodeLine k p).
  - unfold nodeLine. exists (js "    " ++ nodeId k ++ js "["), (js "]").
    now rewrite <- !app_assoc.
  - apply In_Contains_unlines. unfold linearChain. right.
    apply in_or_app. left.
    apply in_map_iff. exists (k, p). auto.
Qed.

End ContainsFacts.

(** The scaffold of a fallback document (header, identifiers, brackets,
    edges) holds no occurrence of a graph declaration [T]: an occurrence
    lies inside a label. *)
Section ScaffoldFree.

Variable T : jsstring.
Hypothesis T_long : (8 <= List.length T)%nat.
Hypothesis T_LF : ~ In LF T.
Hypothesis T_open : ~ In 91 T.
Hypothesis T_close : ~ In 93 T.
Hypothesis T_dash : ~ In 45 T.
Hypothesis T_header : ~ Contains T (js "flowchart TD").

Lemma short_free s : (List.length s < 8)%nat -> ~ Contains T s.
Proof. intros H C. apply Contains_length in C. lia. Qed.

Lemma edgeLine_free k : ~ Contains T (edgeLine k).
Proof.
  unfold edgeLine, nodeId, fromCharCode.
  set (x := (65 + N.of_nat k) mod 65536).
  set (y := (65 + N.of_nat (k + 1)) mod 65536).
  change (js "    " ++ [x] ++ js " --> " ++ [y])
    with ([32; 32; 32; 32; x; 32] ++ 45 :: ([] ++ 45 :: [62; 32; y])).
  intros H.
  apply Contains_split_at in H as [H | H]; [| | exact T_dash].
  - revert H. apply short_free. simpl. lia.
  - apply Contains_split_at in H as [H | H]; [| | exact T_dash];
      revert H; apply short_free; simpl; lia.
Qed.

Lemma unlines_cons l lines : unlines (l :: lines) = l ++ LF :: unlines lines.
Proof. unfold unlines. cbn [List.map List.concat]. now rewrite <- app_assoc. Qed.

Lemma unlines_app l1 l2 : unlines (l1 ++ l2) = unlines l1 ++ unlines l2.
Proof. unfold unlines. now rewrite List.map_app, concat_app. Qed.

Lemma edges_free ks : ~ Contains T (unlines (List.map edgeLine ks)).
Proof.
  induction ks as [|k ks IH]; cbn [List.map].
  - apply short_free. simpl. lia.
  - rewrite unlines_cons. intros H.
    apply Contains_split_at in H as [H | H]; [| | exact T_LF].
    + now apply edgeLine_free in H.
    + now apply IH.
Qed.

Lemma nodes_free kps : forall tail,
  Contains T
    (unlines (List.map (fun kp => nodeLine (fst kp) (snd kp)) kps) ++ tail) ->
  (exists kp : nat * jsstring,
      In kp kps /\ Contains T (nodeLabel (snd kp)))
  \/ Contains T tail.
Proof.
  induction kps as [|[k p] kps IH]; intros tail H; cbn [List.map] in H.
  - now right.
  - rewrite unlines_cons in H. cbn [fst snd] in H.
    unfold nodeLine in H. rewrite <- !app_assoc in H.
    rewrite (app_assoc (js "    ")) in H.
    change (js "[" ++ ?u) with (91 :: u) in H.
    change (js "]" ++ ?u) with (93 :: ([] ++ u)) in H.
    apply Contains_split_at in H as [H | H]; [| | exact T_open].
    { exfalso. revert H. apply short_free.
      rewrite length_app. unfold nodeId, fromCharCode. simpl. lia. }
    apply Contains_split_at in H as [H | H]; [| | exact T_close].
    { left. exists (k, p). split; [now left | exact H]. }
    cbn [app] in H.
    apply Contains_split_at with (a := []) in H as [H | H];
      [| | exact T_LF].
    { exfalso. revert H. apply short_free. simpl. lia. }
    destruct (IH tail H) as [[kp [Hin HC]] | HC]; [left | now right].
    exists kp. split; [now right | exact HC].
Qed.

Lemma chain_free phrases :
  Contains T (generateFallbackFlowchart phrases) ->
  exists p, In p phrases /\ Contains T (nodeLabel p).
Proof.
  rewrite generateFallbackFlowchart_chain. unfold linearChain.
  rewrite unlines_cons, unlines_app. intros H.
  apply Contains_split_at in H as [H | H]; [| | exact T_LF].
  - now apply T_header in H.
  - apply nodes_free in H as [[[k p] [Hin HC]] | H].
    + exists p. split; [|exact HC]. now apply in_combine_r in Hin.
    + now apply edges_free in H.
Qed.

End ScaffoldFree.

Section FallbackRejected.

Lemma not_In_forallb (c : N) l :
  forallb (fun x => negb (x =? c)) l = true -> ~ In c l.
Proof.
  intros H Hin. rewrite forallb_forall in H. apply H in Hin.
  now rewrite N.eqb_refl in Hin.
Qed.

Lemma fallback_declares_TD phrases :
  Contains GRAPH_TD (generateFallbackFlowchart phrases) ->
  exists p, In p phrases /\ Contains GRAPH_TD (nodeLabel p).
Proof.
  apply chain_free; try (now apply not_In_forallb).
  - simpl. lia.
  - now apply includes_false.
Qed.

Lemma fallback_declares_LR phrases :
  Contains GRAPH_LR (generateFallbackFlowchart phrases) ->
  exists p, In p phrases /\ Contains GRAPH_LR (nodeLabel p).
Proof.
  apply chain_free; try (now apply not_In_forallb).
  - simpl. lia.
  - now apply includes_false.
Qed.

End FallbackRejected.

(** C2, as stated, fails: the document for the single phrase [hello] is
    rejected. *)
Lemma fallback_document_rejected :
  validateMermaidSyntax (JStr (generateFallbackFlowchart [js "hello"]))
  = false.
Proof. reflexivity. Qed.

(** C2, amended.  For every list of phrases the document of the fallback
    generator starts with the header line [flowchart TD], and it has a
    line with node syntax as soon as there is a phrase; the validator,
    which only knows the declarations [graph TD] and [graph LR], accepts
    the document exactly when one of the labels itself contains such a
    declaration. *)
Theorem fallback_document_validation (phrases : list jsstring) :
  (exists rest,
      generateFallbackFlowchart phrases = js "flowchart TD" ++ [LF] ++ rest)
  /\ hasNodesIn (generateFallbackFlowchart phrases)
     = negb (List.length phrases =? 0)%nat
  /\ (validateMermaidSyntax (JStr (generateFallbackFlowchart phrases)) = true
      <-> exists p, In p phrases
                    /\ (Contains GRAPH_TD (nodeLabel p)
                        \/ Contains GRAPH_LR (nodeLabel p))).
Proof.
  split; [|split].
  - rewrite generateFallbackFlowchart_chain. unfold linearChain.
    rewrite unlines_cons. eexists. reflexivity.
  - destruct phrases; [reflexivity | apply hasNodesIn_fallback].
  - rewrite validateMermaidSyntax_string, andb_true_iff, orb_true_iff.
    rewrite !includes_Contains. split.
    + intros [[H | H] _].
      * destruct (fallback_declares_TD _ H) as [p [Hin HC]]. eauto.
      * destruct (fallback_declares_LR _ H) as [p [Hin HC]]. eauto.
    + intros [p [Hin H]]. split.
      * destruct H as [H | H]; [left | right];
          (eapply Contains_trans; [exact H | now apply label_in_fallback]).
      * destruct phrases; [contradiction | apply hasNodesIn_fallback].
Qed.

(* ================================================================= *)
(** ** The normalisation of the chart *)

(** C5.  Normalising twice is not the same as normalising once: the
    last replacement puts a space after every arrow that is not at the
    end of its line, also after an arrow that a space already follows,
    so each pass widens the gap.  Shown on the fallback chart for
    [collect data, save]. *)
Theorem normalizeChart_not_idempotent :
  sampleChart
  = unlines [js "flowchart TD"; js "    A[collect data]"; js "    B[save]";
             js "    A --> B"]
  /\ normalizeChart sampleChart
     = unlines [js "flowchart TD"; js "    A[collect data]"; js "    B[save]";
                js "    A -->  B"]
  /\ normalizeChart (normalizeChart sampleChart)
     = unlines [js "flowchart TD"; js "    A[collect data]"; js "    B[save]";
                js "    A -->   B"]
  /\ normalizeChart (normalizeChart sampleChart) <> normalizeChart sampleChart.
Proof.
  split; [|split; [|split]]; try (vm_compute; reflexivity).
  vm_compute. discriminate.
Qed.

(* ================================================================= *)
(** * Further properties of the code *)

(** ** What a submission does *)

Lemma parseFlowchartInput_log w text log :
  exists d, parseFlowchartInput w text log = (Ok d, log ++ [ApiRequest text]).
Proof.
  destruct (parseFlowchartInput_cases w text log) as [d [P _]]. eauto.
Qed.

(** The requests of a submission, by the result of the backend call. *)
Lemma handleSubmit_log_cases (w : World) (st : PageState) :
  forallb isWhiteSpace (input st) = false ->
  (isFlowchartSelected st = false ->
   snd (handleSubmit w st) = [ApiRequest (input st)])
  /\ (isFlowchartSelected st = true ->
      forall m,
        fst (createFlowchartFromBackend w (input st) [])
        = Ok (JObj [(js "mermaid", m)]) ->
        snd (handleSubmit w st) = [BackendRequest (input st)]
        /\ mermaidCode (fst (handleSubmit w st)) = m)
  /\ (isFlowchartSelected st = true ->
      (forall r, fst (createFlowchartFromBackend w (input st) []) <> Ok r) ->
      snd (handleSubmit w st)
      = [BackendRequest (input st); ApiRequest (input st);
         ToastWarning (js "Used fallback processing")]).
Proof.
  intros Hb. rewrite (handleSubmit_unfold w st Hb). cbv zeta. cbn [fst snd].
  set (st1 := setMermaidCode _ _).
  assert (isFlowchartSelected st1 = isFlowchartSelected st) as Hsel
      by reflexivity.
  change (input st) with (input st1).
  unfold generateDiagram. rewrite Hsel.
  pose proof (createFlowchartFromBackend_log w (input st1) []) as BL.
  split; [|split]; intros Hf; rewrite Hf.
  - destruct (parseFlowchartInput_log w (input st1) []) as [d P].
    unfold bind, ret. now rewrite P.
  - intros m Hm. unfold catch, bind, lift.
    destruct (createFlowchartFromBackend w (input st1) []) as [r log1] eqn:E.
    cbn [fst snd] in Hm, BL. subst r log1.
    destruct (createFlowchartFromBackend_Ok w _ _ E) as [m' [Em Tm]].
    injection Em as <-. unfold getProp. cbn [lookupField].
    destruct (list_eq_dec N.eq_dec (js "mermaid") (js "mermaid"));
      [|contradiction].
    cbn [fst snd]. rewrite Tm. split; reflexivity.
  - intros Hno. unfold catch, bind, lift, emit, ret.
    destruct (createFlowchartFromBackend w (input st1) []) as [[r | e] log1].
    + now destruct (Hno r).
    + cbn [snd] in BL. subst log1.
      destruct (parseFlowchartInput_log w (input st1)
                  ([] ++ [BackendRequest (input st1)])) as [d P].
      now rewrite P.
Qed.

(** X1.  The requests of a submission of a text that is not blank.  For
    a type other than Flowchart only the API is asked.  For Flowchart the
    backend is asked first: if it answers with a [mermaid] value that is
    truthy, the API is not asked; otherwise the API is asked next and a
    warning toast is shown. *)
Theorem handleSubmit_requests (w : World) (st : PageState) :
  forallb isWhiteSpace (input st) = false ->
  (isFlowchartSelected st = false ->
   snd (handleSubmit w st) = [ApiRequest (input st)])
  /\ (isFlowchartSelected st = true ->
      (exists m, backendAnswers w (input st) m) ->
      snd (handleSubmit w st) = [BackendRequest (input st)])
  /\ (isFlowchartSelected st = true ->
      (forall m, ~ backendAnswers w (input st) m) ->
      snd (handleSubmit w st)
      = [BackendRequest (input st); ApiRequest (input st);
         ToastWarning (js "Used fallback processing")]).
Proof.
  intros Hb. destruct (handleSubmit_log_cases w st Hb) as (H1 & H2 & H3).
  split; [exact H1|]. split.
  - intros Hf [m (status & body & data & F & D & G & T)].
    apply (H2 Hf m).
    apply (proj2 (createFlowchartFromBackend_iff w (input st) [] _)).
    exists status, body, data, m. auto.
  - intros Hf Hno. apply (H3 Hf). intros r Hr.
    apply (proj2 (createFlowchartFromBackend_iff w (input st) [] r)) in Hr
      as (status & body & data & m & F & D & G & T & _).
    apply (Hno m). exists status, body, data. auto.
Qed.

Lemma generateDiagram_ext w a b :
  selected a = selected b -> input a = input b ->
  generateDiagram w a = generateDiagram w b.
Proof.
  intros Hs Hi. unfold generateDiagram, isFlowchartSelected.
  now rewrite Hs, Hi.
Qed.

(** X2.  A submission is stateless: it keeps the selected type, the
    text, the code toggle and the warning, and what it leaves as
    document, error and requests depends on the selected type and the
    text only, not on the document or error of an earlier submission;
    it always ends with the loading flag off. *)
Theorem handleSubmit_stateless (w : World) (st1 st2 : PageState) :
  (selected (fst (handleSubmit w st1)) = selected st1
   /\ input (fst (handleSubmit w st1)) = input st1
   /\ showDSL (fst (handleSubmit w st1)) = showDSL st1
   /\ inputWarning (fst (handleSubmit w st1)) = inputWarning st1)
  /\ (forallb isWhiteSpace (input st1) = false ->
      selected st1 = selected st2 -> input st1 = input st2 ->
      mermaidCode (fst (handleSubmit w st1))
      = mermaidCode (fst (handleSubmit w st2))
      /\ error (fst (handleSubmit w st1)) = error (fst (handleSubmit w st2))
      /\ loading (fst (handleSubmit w st1)) = false
      /\ snd (handleSubmit w st1) = snd (handleSubmit w st2)).
Proof.
  split.
  - destruct (forallb isWhiteSpace (input st1)) eqn:Hb.
    + unfold handleSubmit. rewrite truthyStr_trim, Hb. cbn. auto.
    + rewrite (handleSubmit_unfold w st1 Hb). cbv zeta. cbn [fst].
      destruct (fst (generateDiagram w _ [])); cbn; auto.
  - intros Hb Hs Hi.
    assert (forallb isWhiteSpace (input st2) = false) as Hb2
        by now rewrite <- Hi.
    rewrite (handleSubmit_unfold w st1 Hb), (handleSubmit_unfold w st2 Hb2).
    cbv zeta. cbn [fst snd].
    set (a := setMermaidCode _ (setError _ (setLoading _ st1))).
    set (b := setMermaidCode _ (setError _ (setLoading _ st2))).
    assert (generateDiagram w a = generateDiagram w b) as ->
        by (apply generateDiagram_ext; assumption).
    assert (submitFallbackDiagram a = submitFallbackDiagram b) as ->.
    { unfold submitFallbackDiagram, selectedOrProcess.
      change (selected a) with (selected st1).
      change (selected b) with (selected st2). now rewrite Hs. }
    destruct (fst (generateDiagram w b [])); cbn; auto.
Qed.

Lemma handleSubmit_stateless_witness :
  mermaidCode (fst (handleSubmit offlineWorld samplePage))
  = mermaidCode
      (fst (handleSubmit offlineWorld
              (setError (Some (js "old error"))
                 (setMermaidCode (JStr (js "graph TD")) samplePage)))).
Proof.
  apply (proj2 (handleSubmit_stateless offlineWorld samplePage
                  (setError (Some (js "old error"))
                     (setMermaidCode (JStr (js "graph TD")) samplePage))));
    reflexivity.
Defined.

Lemma handleSubmit_requests_witness :
  snd (handleSubmit offlineWorld samplePage)
  = [BackendRequest (js "hello"); ApiRequest (js "hello");
     ToastWarning (js "Used fallback processing")].
Proof.
  apply (proj2 (proj2 (handleSubmit_requests offlineWorld samplePage
                         eq_refl))).
  - reflexivity.
  - intros m (status & body & data & F & _). vm_compute in F. discriminate F.
Defined.

(* ================================================================= *)
(** ** What the cleaner returns *)

Lemma stableFrom_blank rest : forall acc i,
  stableFrom acc rest -> nth_error rest i = Some [] ->
  (List.length acc + i = 1)%nat.
Proof.
  induction rest as [|r rest IH]; intros acc i H Hi.
  - now destruct i.
  - destruct H as [_ [_ [Ha Hs]]]. destruct i as [|i].
    + injection Hi as ->. unfold accepts in Ha. cbn [truthyStr truthy orb] in Ha.
      apply andb_true_iff in Ha as [Ha _]. apply Nat.eqb_eq in Ha. lia.
    + specialize (IH _ i Hs Hi). rewrite length_app in IH. simpl in IH. lia.
Qed.

Lemma stableFrom_clean rest : forall acc,
  stableFrom acc rest -> Forall (fun r => cleanLine r = r) rest.
Proof.
  induction rest as [|r rest IH]; intros acc H; constructor.
  - apply H.
  - apply (IH (acc ++ [r])), H.
Qed.

Lemma cleanLine_no_glyph line c :
  In c (cleanLine line) -> isGlyph c = false.
Proof.
  unfold cleanLine, stripGlyphs. intros H. apply In_trim, filter_In in H.
  destruct H as [_ H]. now destruct (isGlyph c).
Qed.

Lemma In_join c sep parts :
  In c (join sep parts) -> In c sep \/ exists p, In p parts /\ In c p.
Proof.
  induction parts as [|p parts IH]; [contradiction|].
  destruct parts as [|q parts].
  - intros H. right. exists p. split; [now left | exact H].
  - change (join sep (p :: q :: parts)) with (p ++ sep ++ join sep (q :: parts)).
    intros H. apply in_app_or in H as [H | H].
    + right. exists p. split; [now left | exact H].
    + apply in_app_or in H as [H | H]; [now left|].
      destruct (IH H) as [H' | [p' [Hp Hc]]]; [now left|].
      right. exists p'. split; [now right | exact Hc].
Qed.

Lemma startsWith_app p s t :
  startsWith p s = true -> startsWith p (s ++ t) = true.
Proof.
  rewrite !startsWith_prefix. intros [rest ->]. exists (rest ++ t).
  now rewrite app_assoc.
Qed.

Lemma startsWith_join p h t :
  startsWith p h = true -> startsWith p (join [LF] (h :: t)) = true.
Proof.
  intros H. destruct t as [|q t]; [exact H|].
  change (join [LF] (h :: q :: t)) with (h ++ [LF] ++ join [LF] (q :: t)).
  now apply startsWith_app.
Qed.

(** X3.  The cleaner answers [null] exactly on values that are not a
    non-empty string.  A string it returns is never empty: it starts
    with [graph], holds none of the stripped glyph code units, and has no
    blank line, except that the line right after the header may be
    blank. *)
Theorem cleanMermaidCode_result (v : jsval) :
  (cleanMermaidCode v = JNull <-> forall c s, v <> JStr (c :: s))
  /\ (forall d,
        cleanMermaidCode v = JStr d ->
        startsWith GRAPH d = true
        /\ (forall c, In c d -> isGlyph c = false)
        /\ (forall i, nth_error (splitOn isNewline d) i = Some [] ->
                      i = 1%nat)).
Proof.
  split.
  - split.
    + intros H c s ->. unfold cleanMermaidCode in H.
      cbn [truthy isString negb orb] in H.
      now destruct (_ || _) in H.
    + intros H. unfold cleanMermaidCode.
      destruct v as [| | b | z | [|c s] | fields];
        try (cbn [isString negb]; now rewrite orb_true_r);
        try reflexivity.
      now destruct (H c s).
  - intros d Hd.
    destruct (cleanMermaidCode_cases v)
      as [E | [E | [code [h [t [-> [L [G E]]]]]]]]; rewrite E in Hd.
    + discriminate.
    + injection Hd as <-. split; [reflexivity|]. split.
      * intros c Hc.
        assert (forallb (fun x => negb (isGlyph x)) minimalDiagram = true)
          as F by reflexivity.
        rewrite forallb_forall in F. apply F in Hc.
        now destruct (isGlyph c).
      * intros i Hi.
        do 4 (destruct i as [|i]; [try discriminate Hi; try reflexivity|]).
        now destruct i.
    + injection Hd as <-.
      pose proof (cleanedLinesOf_stable code) as S. rewrite L in S.
      split; [now apply (startsWith_join GRAPH h t)|]. split.
      * intros c Hc.
        apply (In_join c [LF] (h :: t)) in Hc as [[<- | []] | [p [Hp Hc]]];
          [reflexivity|].
        apply stableFrom_clean in S. rewrite Forall_forall in S.
        rewrite <- (S p Hp) in Hc. now apply cleanLine_no_glyph in Hc.
      * intros i Hi.
        change (nth_error (splitOn isNewline (join [LF] (h :: t))) i
                = Some []) in Hi.
        rewrite splitOn_join in Hi;
          [| reflexivity | discriminate | now apply stableFrom_sepFree with []].
        now apply (stableFrom_blank _ [] i S).
Qed.

Lemma cleanMermaidCode_result_witness :
  startsWith GRAPH (js "graph LR" ++ [LF; LF] ++ js "A --> B") = true.
Proof.
  apply (proj2 (cleanMermaidCode_result
                  (JStr (js "graph LR" ++ [LF; LF] ++ js "  A --> B" ++ [LF])))
           (js "graph LR" ++ [LF; LF] ++ js "A --> B")).
  reflexivity.
Defined.

(* ================================================================= *)
(** ** The cleaner before the validator *)

Lemma join_splitOn s : join [LF] (splitOn isNewline s) = s.
Proof.
  induction s as [|c s IH]; [reflexivity|].
  cbn [splitOn]. destruct (splitOn_cons isNewline s) as [l [ls E]].
  rewrite E. rewrite E in IH. rewrite <- IH.
  destruct (isNewline c) eqn:N.
  - apply N.eqb_eq in N. now subst c.
  - now destruct ls.
Qed.

Lemma In_Contains_join l parts :
  In l parts -> Contains l (join [LF] parts).
Proof.
  induction parts as [|p parts IH]; [contradiction|].
  destruct parts as [|q parts].
  - intros [-> | []]. exists [], []. now rewrite app_nil_r.
  - change (join [LF] (p :: q :: parts))
      with (p ++ [LF] ++ join [LF] (q :: parts)).
    intros [-> | H].
    + now exists [], ([LF] ++ join [LF] (q :: parts)).
    + apply Contains_app_right, Contains_app_right. now apply IH.
Qed.

(** An occurrence of a text without line feed lies within one line. *)
Lemma Contains_join_line t parts :
  ~ In LF t -> t <> [] -> Contains t (join [LF] parts) ->
  exists l, In l parts /\ Contains t l.
Proof.
  intros Ht Hne. induction parts as [|p parts IH].
  - intros H. apply Contains_length in H. destruct t; [contradiction|].
    simpl in H. lia.
  - destruct parts as [|q parts].
    + intros H. exists p. split; [now left | exact H].
    + change (join [LF] (p :: q :: parts))
        with (p ++ LF :: join [LF] (q :: parts)).
      intros H. apply Contains_split_at in H as [H | H]; [| | exact Ht].
      * exists p. split; [now left | exact H].
      * destruct (IH H) as [l [Hl Hc]]. exists l. split; [now right | exact Hc].
Qed.

Lemma In_splitOn_chars sep l s c :
  In l (splitOn sep s) -> In c l -> In c s.
Proof.
  intros Hl Hc.
  assert (In c (List.concat (splitOn sep s))) as H
      by (apply in_concat; eauto).
  rewrite concat_splitOn in H. now apply filter_In in H.
Qed.

Lemma fold_cleanStep_incl lines : forall acc x,
  In x acc -> In x (fold_left cleanStep lines acc).
Proof.
  induction lines as [|l lines IH]; intros acc x H; cbn [fold_left];
    [exact H|].
  apply IH. rewrite cleanStep_accepts.
  destruct (accepts acc (cleanLine l)); [|exact H].
  apply in_or_app. now left.
Qed.

(** Every line with visible content is kept, cleaned. *)
Lemma fold_cleanStep_keeps lines : forall acc l,
  In l lines -> truthyStr (cleanLine l) = true ->
  In (cleanLine l) (fold_left cleanStep lines acc).
Proof.
  induction lines as [|l0 lines IH]; intros acc l H T; [contradiction|].
  cbn [fold_left]. destruct H as [-> | H]; [|now apply IH].
  apply fold_cleanStep_incl. rewrite cleanStep_accepts.
  unfold accepts. rewrite T. cbn [orb]. apply in_or_app. right. now left.
Qed.

Lemma stripGlyphs_plain l :
  (forall c, In c l -> isGlyph c = false) -> stripGlyphs l = l.
Proof.
  intros H. apply filter_fixed. intros c Hc. now rewrite (H c Hc).
Qed.

Lemma lineCounts_trim l : lineCounts (trim l) = lineCounts l.
Proof. unfold lineCounts. now rewrite trim_idem. Qed.

Lemma lineCounts_truthy l : lineCounts l = true -> truthyStr (trim l) = true.
Proof.
  unfold lineCounts. now destruct (truthyStr (trim l)).
Qed.

(** X4.  On a document without glyph code units the cleaner never loses
    the validator's approval: if the validator accepts the document, it
    accepts what the cleaner returns for it. *)
Theorem cleanMermaidCode_keeps_valid (d : jsstring) :
  (forall c, In c d -> isGlyph c = false) ->
  validateMermaidSyntax (JStr d) = true ->
  validateMermaidSyntax (cleanMermaidCode (JStr d)) = true.
Proof.
  intros Hplain Hv.
  destruct (cleanMermaidCode_cases (JStr d))
    as [E | [E | [code [h [t [Ec [L [G E]]]]]]]]; rewrite E.
  - exfalso. destruct d as [|c s]; [discriminate Hv|].
    unfold cleanMermaidCode in E. cbn [truthy isString negb orb] in E.
    now destruct (_ || _) in E.
  - reflexivity.
  - injection Ec as <-.
    assert (forall l, In l (splitOn isNewline d) -> cleanLine l = trim l)
      as Hcl.
    { intros l Hl. unfold cleanLine. rewrite stripGlyphs_plain; [reflexivity|].
      intros c Hc. apply Hplain. eapply In_splitOn_chars; eauto. }
    assert (forall l, In l (splitOn isNewline d) -> trim l <> [] ->
                      In (trim l) (h :: t)) as Hkeep.
    { intros l Hl Hne. rewrite <- L, <- (Hcl l Hl).
      apply fold_cleanStep_keeps; [exact Hl|]. rewrite (Hcl l Hl).
      unfold truthyStr, truthy. now destruct (trim l). }
    rewrite validateMermaidSyntax_string in *.
    apply andb_true_iff in Hv as [Hdecl Hnodes].
    apply andb_true_iff. split.
    + assert (forall T, T = GRAPH_TD \/ T = GRAPH_LR -> Contains T d ->
                        Contains T (join [LF] (h :: t))) as Hc.
      { intros T HT HC. rewrite <- (join_splitOn d) in HC.
        apply Contains_join_line in HC as [l [Hl HC]];
          [| destruct HT as [-> | ->]; now apply not_In_forallb
           | destruct HT as [-> | ->]; discriminate].
        assert (Contains T (trim l)) as HC'.
        { apply Contains_trim; [| | exact HC]; destruct HT as [-> | ->].
          - now exists 103, (js "raph TD").
          - now exists 103, (js "raph LR").
          - now exists (js "graph T"), 68.
          - now exists (js "graph L"), 82. }
        apply Contains_trans with (trim l); [exact HC'|].
        apply In_Contains_join, Hkeep; [exact Hl|].
        intros E0. rewrite E0 in HC'. apply Contains_length in HC'.
        destruct HT as [-> | ->]; simpl in HC'; lia. }
      apply orb_true_iff in Hdecl. apply orb_true_iff.
      rewrite !includes_Contains in *. destruct Hdecl as [H | H];
        [left | right]; apply Hc; auto.
    + rewrite hasNodesIn_existsb in *.
      apply existsb_exists in Hnodes as [l [Hl Hcount]].
      rewrite splitOn_join;
        [| reflexivity | discriminate
         | apply stableFrom_sepFree with []; rewrite <- L;
           apply cleanedLinesOf_stable].
      apply existsb_exists. exists (trim l). split.
      * apply Hkeep; [exact Hl|]. apply lineCounts_truthy in Hcount.
        intros E0. rewrite E0 in Hcount. discriminate.
      * now rewrite lineCounts_trim.
Qed.

Lemma cleanMermaidCode_keeps_valid_witness :
  validateMermaidSyntax
    (cleanMermaidCode
       (JStr (js "  graph TD " ++ [LF; LF; LF] ++ js "  A[x] --> B[y] ")))
  = true.
Proof.
  apply cleanMermaidCode_keeps_valid.
  - intros c Hc.
    assert (forallb (fun x => negb (isGlyph x))
              (js "  graph TD " ++ [LF; LF; LF] ++ js "  A[x] --> B[y] ")
            = true) as F by reflexivity.
    rewrite forallb_forall in F. apply F in Hc. now destruct (isGlyph c).
  - reflexivity.
Defined.

(* ================================================================= *)
(** ** Words, and the warning shown while typing *)

Section GreedyStar.

Variable A : Type.
Variable p : N -> bool.

(** With a continuation that cannot fail, [p*] takes the longest run. *)
Lemma rmatch_star_class (k : jsstring -> list jsstring -> option A) :
  (forall s caps, k s caps <> None) ->
  forall s caps,
    Re.rmatch (Re.Star (Re.Class p)) s caps k
    = k ((fix skip (u : jsstring) : jsstring :=
            match u with
            | [] => []
            | c :: u' => if p c then skip u' else u
            end) s) caps.
Proof.
  intros Hk s caps. cbn [Re.rmatch].
  assert (forall fuel u,
             (List.length u <= fuel)%nat ->
             (fix iterate (fuel : nat) (s : jsstring) (caps : list jsstring)
                {struct fuel} : option A :=
                match fuel with
                | O => k s caps
                | S fuel' =>
                    match
                      match s with
                      | [] => None
                      | x :: s' =>
                          if p x
                          then
                            if (List.length s' <? List.length s)%nat
                            then iterate fuel' s' caps
                            else None
                          else None
                      end
                    with
                    | Some a => Some a
                    | None => k s caps
                    end
                end) fuel u caps
             = k ((fix skip (u : jsstring) : jsstring :=
                     match u with
                     | [] => []
                     | c :: u' => if p c then skip u' else u
                     end) u) caps) as H.
  { induction fuel as [|fuel IH]; intros u Hu.
    - destruct u; [reflexivity | simpl in Hu; lia].
    - destruct u as [|x u]; [reflexivity|].
      destruct (p x) eqn:Px; [|reflexivity].
      assert ((List.length u <? List.length (x :: u))%nat = true) as ->
          by (apply Nat.ltb_lt; simpl; lia).
      rewrite IH by (simpl in Hu; lia).
      destruct (k _ caps) eqn:E; [reflexivity|]. now apply Hk in E. }
  apply H. lia.
Qed.

End GreedyStar.

Lemma trimStart_skip s :
  (fix skip (u : jsstring) : jsstring :=
     match u with
     | [] => []
     | c :: u' => if isWhiteSpace c then skip u' else u
     end) s = trimStart s.
Proof. induction s as [|c s IH]; simpl; [reflexivity|]. now rewrite IH. Qed.

Lemma trimStart_length s : (List.length (trimStart s) <= List.length s)%nat.
Proof.
  induction s as [|c s IH]; simpl; [lia|].
  destruct (isWhiteSpace c); simpl; lia.
Qed.

(** The white space at the start of [s]. *)
Lemma trimStart_prefix s :
  forallb isWhiteSpace
    (firstn (List.length s - List.length (trimStart s)) s) = true.
Proof.
  induction s as [|c s IH]; [reflexivity|].
  simpl trimStart. destruct (isWhiteSpace c) eqn:W.
  - pose proof (trimStart_length s).
    replace (List.length (c :: s) - List.length (trimStart s))%nat
      with (S (List.length s - List.length (trimStart s)))
      by (cbn [List.length]; lia).
    cbn [firstn forallb]. now rewrite W, IH.
  - now rewrite Nat.sub_diag.
Qed.

(** A match of [\s+]: none at a unit that is not white space, else the
    whole run of white space. *)
Lemma matchAt_whitespace c s :
  Re.matchAt (Re.Plus ws) (c :: s)
  = if isWhiteSpace c
    then Some (S (List.length s - List.length (trimStart s)), [])
    else None.
Proof.
  unfold Re.matchAt, Re.Plus, ws. cbn [Re.rmatch].
  destruct (isWhiteSpace c); [|reflexivity].
  change (Re.rmatch (Re.Star (Re.Class isWhiteSpace)) s []
            (fun rest caps =>
               Some ((List.length (c :: s) - List.length rest)%nat, caps))
          = Some (S (List.length s - List.length (trimStart s)), [])).
  rewrite rmatch_star_class by discriminate.
  rewrite trimStart_skip. pose proof (trimStart_length s).
  f_equal. f_equal. cbn [List.length]. lia.
Qed.

Lemma nonEmptyCount_cons x l :
  nonEmptyCount (x :: l)
  = ((if (0 <? List.length x)%nat then 1 else 0) + nonEmptyCount l)%nat.
Proof.
  unfold nonEmptyCount. cbn [filter].
  now destruct (0 <? List.length x)%nat.
Qed.

Lemma splitFrom_words s : forall current skip,
  forallb isWhiteSpace (firstn skip s) = true ->
  (skip = 0%nat \/ current = []) ->
  nonEmptyCount (Re.splitFrom (Re.Plus ws) s current skip)
  = (countWords s (0 <? List.length current)%nat
     + if (0 <? List.length current)%nat then 1 else 0)%nat.
Proof.
  induction s as [|c s IH]; intros current skip Hws Hc.
  - destruct current; reflexivity.
  - destruct skip as [|skip].
    + cbn [Re.splitFrom]. rewrite matchAt_whitespace.
      cbn [countWords]. destruct (isWhiteSpace c) eqn:W.
      * rewrite nonEmptyCount_cons.
        rewrite IH; [| apply trimStart_prefix | now right].
        cbn [List.length Nat.ltb Nat.leb]. lia.
      * rewrite IH; [| reflexivity | now left].
        rewrite length_app. cbn [List.length].
        replace (0 <? List.length current + 1)%nat with true
          by (symmetry; apply Nat.ltb_lt; lia).
        cbv iota. destruct (0 <? List.length current)%nat; lia.
    + destruct Hc as [Hc | ->]; [discriminate|].
      cbn [Re.splitFrom countWords firstn forallb] in *.
      apply andb_true_iff in Hws as [W Hws]. rewrite W.
      rewrite IH; [reflexivity | exact Hws | now right].
Qed.

Lemma countWords_bound s :
  (2 * countWords s false <= List.length s + 1
   /\ 2 * countWords s true <= List.length s)%nat.
Proof.
  induction s as [|c s [IHf IHt]]; simpl; [lia|].
  destruct (isWhiteSpace c); lia.
Qed.

Lemma countWords_zero s :
  countWords s false = 0%nat <-> forallb isWhiteSpace s = true.
Proof.
  induction s as [|c s IH]; simpl; [tauto|].
  destruct (isWhiteSpace c); simpl; [exact IH|]. split; [lia | discriminate].
Qed.

(** X5.  The word count of [analyzeInput], computed by splitting at
    [\s+] and dropping the empty pieces, is the number of maximal runs of
    code units that are not white space.  It is zero exactly for a blank
    text, and a text of [n] code units has at most [(n + 1) / 2]
    words. *)
Theorem wordCountOf_words (text : jsstring) :
  wordCountOf text = N.of_nat (countWords text false)
  /\ (wordCountOf text = 0 <-> forallb isWhiteSpace text = true)
  /\ 2 * wordCountOf text <= jsLength text + 1.
Proof.
  assert (wordCountOf text = N.of_nat (countWords text false)) as E.
  { unfold wordCountOf, Re.split. destruct text as [|c s]; [reflexivity|].
    fold (nonEmptyCount (Re.splitFrom (Re.Plus ws) (c :: s) [] 0)).
    rewrite splitFrom_words; [| reflexivity | now left].
    cbn [List.length Nat.ltb Nat.leb]. f_equal. lia. }
  rewrite E. split; [reflexivity|]. split.
  - rewrite <- countWords_zero. lia.
  - unfold jsLength. pose proof (countWords_bound text). lia.
Qed.

(** X6.  [handleInputChange] stores the new text and touches no other
    cell than the warning; a warning is on the page afterwards exactly
    when the Flowchart type is selected and the text is longer than 1000
    code units. *)
Theorem handleInputChange_warning (newValue : jsstring) (st : PageState) :
  input (handleInputChange newValue st) = newValue
  /\ selected (handleInputChange newValue st) = selected st
  /\ mermaidCode (handleInputChange newValue st) = mermaidCode st
  /\ loading (handleInputChange newValue st) = loading st
  /\ error (handleInputChange newValue st) = error st
  /\ showDSL (handleInputChange newValue st) = showDSL st
  /\ (inputWarning (handleInputChange newValue st) <> None <->
      isFlowchartSelected st = true /\ 1000 < jsLength newValue).
Proof.
  unfold handleInputChange.
  change (isFlowchartSelected (setInput newValue st))
    with (isFlowchartSelected st).
  destruct (isFlowchartSelected st); repeat (split; [reflexivity|]).
  - unfold analyzeInput, inputWarningFor. cbn [inputWarning setInputWarning].
    destruct (N.ltb_spec 3000 (jsLength newValue));
      [split; [intros _; split; [reflexivity | lia] | discriminate]|].
    destruct (N.ltb_spec 2000 (jsLength newValue));
      [split; [intros _; split; [reflexivity | lia] | discriminate]|].
    destruct (N.ltb_spec 1000 (jsLength newValue));
      [split; [intros _; split; [reflexivity | lia] | discriminate]|].
    split; [intros E; now destruct E | intros [_ E]; lia].
  - cbn [inputWarning setInputWarning].
    split; [intros E; now destruct E | intros [E _]; discriminate].
Qed.

(* ================================================================= *)
(** ** The ReactFlow converter *)

Lemma fold_left_append {A} (f : A -> jsstring) l : forall init,
  fold_left (fun acc x => acc ++ f x) l init
  = init ++ List.concat (List.map f l).
Proof.
  induction l as [|x l IH]; intros init; cbn [fold_left List.map List.concat].
  - now rewrite app_nil_r.
  - now rewrite IH, <- app_assoc.
Qed.


Lemma sepFree_app sep a b :
  sepFree sep a -> sepFree sep b -> sepFree sep (a ++ b).
Proof.
  intros Ha Hb c Hc. apply in_app_or in Hc as [Hc | Hc]; auto.
Qed.

Lemma sepFree_cons sep c a :
  sep c = false -> sepFree sep a -> sepFree sep (c :: a).
Proof. intros Hc Ha x [<- | Hx]; auto. Qed.

Lemma cleanLabelOf_chars label c :
  In c (cleanLabelOf label) -> c <> DQUOTE /\ c <> LF.
Proof.
  unfold cleanLabelOf. intros H. apply In_trim, in_map_iff in H.
  destruct H as [x [<- _]].
  destruct (x =? DQUOTE) eqn:Q; [split; discriminate|].
  destruct (x =? LF) eqn:L; [split; discriminate|].
  apply N.eqb_neq in Q, L. cbn [orb]. auto.
Qed.

Lemma cleanLabelOf_sepFree label : sepFree isNewline (cleanLabelOf label).
Proof.
  intros c Hc. apply cleanLabelOf_chars in Hc as [_ Hc].
  unfold isNewline. now apply N.eqb_neq.
Qed.

(** The text of a node: the identifier, then a shape that opens with a
    parenthesis, a brace or a bracket, closes with its counterpart and
    holds no line feed. *)
Lemma nodeText_shape node :
  exists o mid cl,
    nodeText node = js "  " ++ node_id node ++ o :: mid ++ [cl] ++ [LF]
    /\ (o = 40 \/ o = 123 \/ o = 91)
    /\ (cl = 41 \/ cl = 125 \/ cl = 93)
    /\ sepFree isNewline mid.
Proof.
  unfold nodeText.
  set (lab := cleanLabelOf _).
  assert (sepFree isNewline lab) as Hl by apply cleanLabelOf_sepFree.
  assert (sepFree isNewline (quoted lab)) as Hq.
  { unfold quoted. apply sepFree_cons; [reflexivity|].
    apply sepFree_app; [exact Hl|]. now apply sepFree_cons. }
  assert (sepFree isNewline (91 :: quoted lab ++ [93])) as Hs.
  { apply sepFree_cons; [reflexivity|].
    apply sepFree_app; [exact Hq|]. now apply sepFree_cons. }
  destruct (isType (js "input") (node_type node));
    [|destruct (isType (js "output") (node_type node));
      [|destruct (includes (js "?") lab || includes (js "decision") lab)]].
  - exists 40, (91 :: quoted lab ++ [93]), 41.
    split; [|auto]. cbn [js List.map list_ascii_of_string app].
    now rewrite <- !app_assoc.
  - exists 40, (91 :: quoted lab ++ [93]), 41.
    split; [|auto]. cbn [js List.map list_ascii_of_string app].
    now rewrite <- !app_assoc.
  - exists 123, lab, 125. split; [|auto]. reflexivity.
  - exists 91, (quoted lab), 93. split; [|auto]. reflexivity.
Qed.








Lemma splitOn_unlines lines :
  Forall (sepFree isNewline) lines ->
  splitOn isNewline (unlines lines) = lines ++ [[]].
Proof.
  induction lines as [|l lines IH]; intros H; [reflexivity|].
  inversion H as [|? ? Hl Hls]; subst.
  rewrite unlines_cons.
  rewrite (@splitOn_app_sep isNewline l LF (unlines lines) Hl eq_refl).
  now rewrite IH.
Qed.

Lemma concat_unlines {A} (f g : A -> jsstring) l :
  (forall x, In x l -> f x = g x ++ [LF]) ->
  List.concat (List.map f l) = unlines (List.map g l).
Proof.
  induction l as [|x l IH]; intros H; [reflexivity|].
  cbn [List.map List.concat]. rewrite unlines_cons, H by now left.
  rewrite IH; [now rewrite <- app_assoc|].
  intros y Hy. apply H. now right.
Qed.

Lemma nodeText_line node :
  sepFree isNewline (node_id node) ->
  nodeText node = removelast (nodeText node) ++ [LF]
  /\ sepFree isNewline (removelast (nodeText node)).
Proof.
  intros Hid. destruct (nodeText_shape node) as [o [mid [cl [E [Ho [Hcl Hm]]]]]].
  assert (nodeText node = (js "  " ++ node_id node ++ o :: mid ++ [cl]) ++ [LF])
    as E' by (rewrite E; repeat (rewrite <- app_assoc; cbn [app]); reflexivity).
  rewrite E', removelast_last. split; [reflexivity|].
  apply sepFree_app; [now apply sepFree_forallb|].
  apply sepFree_app; [exact Hid|].
  apply sepFree_cons; [destruct Ho as [-> | [-> | ->]]; reflexivity|].
  apply sepFree_app; [exact Hm|].
  apply sepFree_cons; [destruct Hcl as [-> | [-> | ->]]; reflexivity|].
  intros c [].
Qed.

Lemma edgeText_line edge :
  plainEdge edge ->
  edgeText edge = removelast (edgeText edge) ++ [LF]
  /\ sepFree isNewline (removelast (edgeText edge)).
Proof.
  intros (Hs & Ht & Hl). unfold edgeText.
  destruct (edge_label edge) as [[|c l]|];
    rewrite !app_assoc, removelast_last; (split; [reflexivity|]);
    rewrite <- !app_assoc;
    repeat first [ assumption
                 | apply sepFree_app
                 | apply sepFree_forallb; reflexivity ].
Qed.

(** X8.  In the document of [convertReactFlowToMermaid] every node and
    every edge takes exactly one line after the header, provided the
    identifiers and the sources, targets and labels of the edges have no
    line feed; the labels of the nodes may hold line feeds and double
    quotes, which never reach the document. *)
Theorem convertReactFlowToMermaid_lines (data : ReactFlowData)
    (nodes : list FlowNode) (edges : list FlowEdge) :
  flow_nodes data = Some nodes -> flow_edges data = Some edges ->
  (forall n, In n nodes -> sepFree isNewline (node_id n)) ->
  (forall e, In e edges -> plainEdge e) ->
  convertReactFlowToMermaid (Some data)
  = Ok (unlines (js "graph TD"
                 :: List.map (fun n => removelast (nodeText n)) nodes
                 ++ List.map (fun e => removelast (edgeText e)) edges))
  /\ splitOn isNewline
       (unlines (js "graph TD"
                 :: List.map (fun n => removelast (nodeText n)) nodes
                 ++ List.map (fun e => removelast (edgeText e)) edges))
     = js "graph TD"
       :: List.map (fun n => removelast (nodeText n)) nodes
       ++ List.map (fun e => removelast (edgeText e)) edges ++ [[]]
  /\ (forall label c, In c (cleanLabelOf label) -> c <> DQUOTE /\ c <> LF).
Proof.
  intros Hn He Hnodes Hedges. split; [|split].
  - unfold convertReactFlowToMermaid. rewrite Hn, He.
    rewrite !fold_left_append, unlines_cons, unlines_app.
    rewrite (concat_unlines nodeText (fun n => removelast (nodeText n)))
      by (intros n Hin; now apply nodeText_line, Hnodes).
    rewrite (concat_unlines edgeText (fun e => removelast (edgeText e)))
      by (intros e Hin; now apply edgeText_line, Hedges).
    repeat (rewrite <- app_assoc; cbn [app]). reflexivity.
  - rewrite splitOn_unlines; [cbn [app]; now rewrite <- app_assoc|].
    constructor; [now apply sepFree_forallb|].
    apply Forall_app. split; apply Forall_forall; intros l Hl;
      apply in_map_iff in Hl as [x [<- Hx]].
    + now apply nodeText_line, Hnodes.
    + now apply edgeText_line, Hedges.
  - apply cleanLabelOf_chars.
Qed.

Lemma convertReactFlowToMermaid_lines_witness :
  exists doc,
    convertReactFlowToMermaid (Some sampleFlow) = Ok doc
    /\ List.length (splitOn isNewline doc) = 5%nat.
Proof.
  destruct (@convertReactFlowToMermaid_lines sampleFlow
              (match flow_nodes sampleFlow with Some l => l | None => [] end)
              (match flow_edges sampleFlow with Some l => l | None => [] end)
              eq_refl eq_refl) as [E [L _]].
  - intros n [<- | [<- | []]]; now apply sepFree_forallb.
  - intros e [<- | []]. repeat split; now apply sepFree_forallb.
  - eexists. split; [exact E|]. rewrite L. reflexivity.
Defined.

(* ================================================================= *)
(** ** The matcher is sound *)

Section MatcherSound.

Variable A : Type.

(** Whatever the matcher finds, it finds by matching a prefix of the
    input that the regular expression denotes, and it hands the rest to
    the continuation. *)
Lemma rmatch_sound r : forall s caps (k : jsstring -> list jsstring -> option A) x,
  Re.rmatch r s caps k = Some x ->
  exists u cs rest,
    s = u ++ rest /\ Matches r u cs /\ k rest (caps ++ cs) = Some x.
Proof.
  induction r as [c | p | r1 IH1 r2 IH2 | r1 IH1 r2 IH2 | r1 IH1 | r1 IH1
                  | r1 IH1];
    intros s caps k x H; cbn [Re.rmatch] in H.
  - destruct s as [|y s]; [discriminate|].
    destruct (y =? c) eqn:E; [|discriminate]. apply N.eqb_eq in E. subst y.
    exists [c], [], s. rewrite app_nil_r. repeat split; [constructor | exact H].
  - destruct s as [|y s]; [discriminate|].
    destruct (p y) eqn:E; [|discriminate].
    exists [y], [], s. rewrite app_nil_r.
    repeat split; [now constructor | exact H].
  - apply IH1 in H as (u1 & c1 & rest1 & -> & M1 & H).
    apply IH2 in H as (u2 & c2 & rest & -> & M2 & H).
    exists (u1 ++ u2), (c1 ++ c2), rest.
    rewrite <- !app_assoc in *. repeat split; [now constructor | exact H].
  - destruct (Re.rmatch r1 s caps k) as [a|] eqn:E1.
    + injection H as ->. apply IH1 in E1 as (u & c & rest & -> & M & H).
      exists u, c, rest. repeat split; [now apply MatchAltLeft | exact H].
    + apply IH2 in H as (u & c & rest & -> & M & H).
      exists u, c, rest. repeat split; [now apply MatchAltRight | exact H].
  - revert H. generalize (List.length s) as fuel. intros fuel. revert s caps.
    induction fuel as [|fuel IHf]; intros s caps H.
    + exists [], [], s. rewrite app_nil_r. repeat split; [constructor | exact H].
    + match type of H with
      | match ?m with _ => _ end = _ => destruct m as [a|] eqn:E1
      end.
      * injection H as ->. apply IH1 in E1 as (u1 & c1 & rest1 & -> & M1 & H).
        destruct (List.length rest1 <? List.length (u1 ++ rest1))%nat;
          [|discriminate].
        apply IHf in H as (u2 & c2 & rest & -> & M2 & H).
        exists (u1 ++ u2), (c1 ++ c2), rest.
        rewrite <- !app_assoc in *.
        repeat split; [now apply MatchStarMore | exact H].
      * exists [], [], s. rewrite app_nil_r.
        repeat split; [constructor | exact H].
  - destruct (Re.rmatch r1 s caps k) as [a|] eqn:E1.
    + injection H as ->. apply IH1 in E1 as (u & c & rest & -> & M & H).
      exists u, c, rest. repeat split; [now apply MatchOptSome | exact H].
    + exists [], [], s. rewrite app_nil_r.
      repeat split; [constructor | exact H].
  - apply IH1 in H as (u & c & rest & -> & M & H).
    exists u, (c ++ [u]), rest.
    rewrite length_app, Nat.add_sub, firstn_app, firstn_all, Nat.sub_diag
      in H.
    cbn [firstn] in H. rewrite app_nil_r, <- app_assoc in H.
    repeat split; [now constructor | exact H].
Qed.

End MatcherSound.

Lemma matchAt_sound r s n caps :
  Re.matchAt r s = Some (n, caps) ->
  exists u rest, s = u ++ rest /\ Matches r u caps /\ n = List.length u.
Proof.
  unfold Re.matchAt. intros H.
  apply rmatch_sound in H as (u & cs & rest & -> & M & H).
  injection H as <- <-. exists u, rest.
  rewrite length_app, Nat.add_sub. auto.
Qed.

(** Captures are pieces of the matched text. *)
Lemma Matches_captures r u cs :
  Matches r u cs -> forall cap x, In cap cs -> In x cap -> In x u.
Proof.
  induction 1 as [| | r1 r2 u1 u2 c1 c2 _ IH1 _ IH2 | r1 r2 u c0 _ IH
                  | r1 r2 u c0 _ IH | | r u1 u2 c1 c2 _ IH1 _ IH2 |
                  | r u c0 _ IH | r u c0 _ IH];
    intros cap y Hcap Hy; try contradiction; eauto.
  - apply in_or_app. apply in_app_or in Hcap as [Hcap | Hcap]; eauto.
  - apply in_or_app. apply in_app_or in Hcap as [Hcap | Hcap]; eauto.
  - apply in_app_or in Hcap as [Hcap | [<- | []]]; eauto.
Qed.

(* ================================================================= *)
(** ** What a replacement can change *)

Lemma expand_chars template caps c :
  In c (Re.expand template caps) ->
  In c (templateText template) \/ exists cap, In cap caps /\ In c cap.
Proof.
  unfold Re.expand, templateText. intros H.
  apply in_flat_map in H as [[t | n] [Hp Hc]].
  - left. apply in_flat_map. now exists (Re.Text t).
  - right. destruct (nth_in_or_default (n - 1) caps []) as [Hn | Hn].
    + eauto.
    + rewrite Hn in Hc. contradiction.
Qed.

(** The code units of the result are code units of the input or of the
    literal text of the replacement pattern. *)
Lemma replaceFrom_chars r template s : forall skip c,
  In c (Re.replaceFrom r template s skip) ->
  In c s \/ In c (templateText template).
Proof.
  assert (forall t n caps c,
             Re.matchAt r t = Some (n, caps) ->
             In c (Re.expand template caps) ->
             In c t \/ In c (templateText template)) as Hexp.
  { intros t n caps c Hm Hc.
    apply matchAt_sound in Hm as (u & rest & -> & M & _).
    apply expand_chars in Hc as [Hc | [cap [Hcap Hc]]]; [now right|].
    left. apply in_or_app. left. eapply Matches_captures; eauto. }
  induction s as [|c0 s IH]; intros skip c H; cbn [Re.replaceFrom] in H.
  - destruct (Re.matchAt r []) as [[n caps]|] eqn:E; [|contradiction].
    eapply Hexp; eauto.
  - destruct skip as [|skip].
    + destruct (Re.matchAt r (c0 :: s)) as [[[|n] caps]|] eqn:E.
      * apply in_app_or in H as [H | [<- | H]].
        -- eapply Hexp; eauto.
        -- left. now left.
        -- destruct (IH _ _ H); [left; now right | now right].
      * apply in_app_or in H as [H | H].
        -- eapply Hexp; eauto.
        -- destruct (IH _ _ H); [left; now right | now right].
      * destruct H as [<- | H]; [left; now left|].
        destruct (IH _ _ H); [left; now right | now right].
    + destruct (IH _ _ H); [left; now right | now right].
Qed.

Lemma replaceAll_chars r template s c :
  In c (Re.replaceAll r template s) ->
  In c s \/ In c (templateText template).
Proof. apply replaceFrom_chars. Qed.

Lemma matchAt_CRLF c0 s :
  Re.matchAt reCRLF (c0 :: s)
  = if c0 =? CR
    then Some (match s with
               | c1 :: _ => if c1 =? LF then 2%nat else 1%nat
               | [] => 1%nat
               end, [])
    else None.
Proof.
  unfold Re.matchAt, reCRLF. cbn [Re.rmatch].
  destruct (c0 =? CR); [|reflexivity].
  destruct s as [|c1 s]; [reflexivity|].
  destruct (c1 =? LF); cbn [List.length]; repeat f_equal; lia.
Qed.

(** After the third replacement no carriage return is left. *)
Lemma replace_CRLF_clean s : forall skip c,
  In c (Re.replaceFrom reCRLF [Re.Text [LF]] s skip) -> c <> CR.
Proof.
  induction s as [|c0 s IH]; intros skip c H; cbn [Re.replaceFrom] in H.
  - contradiction.
  - destruct skip as [|skip]; [|now apply IH in H].
    rewrite matchAt_CRLF in H. destruct (c0 =? CR) eqn:E.
    + destruct s as [|c1 s]; [|destruct (c1 =? LF)];
        unfold Re.expand in H; cbn [flat_map app] in H;
        (destruct H as [<- | H]; [now compute | now apply IH in H]).
    + destruct H as [<- | H]; [now apply N.eqb_neq | now apply IH in H].
Qed.

(** X9.  The normalised chart never holds a carriage return, whatever
    the chart is, and each of its code units is a code unit of the chart,
    a line feed, a space or one of the units of the arrow and the label
    bar that the replacement patterns write. *)
Theorem normalizeChart_code_units (chart : jsstring) (c : N) :
  In c (normalizeChart chart) ->
  c <> CR /\ (In c chart \/ In c (LF :: js " ->|")).
Proof.
  unfold normalizeChart. intros H. split.
  - do 5 (apply replaceAll_chars in H as [H | H];
          [| cbn in H; intuition (subst; discriminate)]).
    unfold Re.replaceAll in H. now apply replace_CRLF_clean in H.
  - do 8 (apply replaceAll_chars in H as [H | H];
          [| right; cbn in H |- *; intuition auto]).
    now left.
Qed.

Lemma normalizeChart_code_units_witness :
  LF <> CR /\ (In LF [CR] \/ In LF (LF :: js " ->|")).
Proof.
  apply (normalizeChart_code_units [CR] LF). vm_compute. auto.
Defined.

(* ================================================================= *)
(** ** The fallback generator on a text without line feeds *)






